(** * rtsyn-plugin: the example C plugin and the UI/behavior builder API

    A shallow embedding of [examples/example_c_plugin.c] and of the functions
    declared in [include/rtsyn_plugin_ui.h].

    - Pointers are integers, [NULL] is 0.
    - The C heap is a finite map from addresses to blocks.  A call that C
      leaves undefined (dereferencing or freeing a pointer that is not live)
      has no result: every operation runs in the monad
      [world -> option (A * world)].
    - The allocator may report exhaustion at any request: the world carries
      the answers it will give to the coming requests.
    - [double] is Rocq's primitive binary64 float; the plugin only stores and
      returns such values. *)

From Stdlib Require Import ZArith String Ascii Floats.
From stdpp Require Import base gmap strings list fin_maps.

Open Scope Z_scope.

(* A decimal constant such as 0.02 denotes the nearest binary64 value, as in C. *)
#[local] Set Warnings "-inexact-float".

(** ** C strings *)

Module CString.

(** The double quote character, written by its code so that the JSON texts
    of the plugin can be spelled piece by piece as in the C source. *)
Definition dq : string := String "034"%char EmptyString.

(** ["s"] as it appears inside a JSON text. *)
Definition quoted (s : string) : string := dq +:+ s +:+ dq.

Definition code (c : ascii) : Z := Z.of_N (N_of_ascii c).

(** [strcmp] of the C library on the contents of two NUL-terminated
    strings: the end of a string reads as the byte 0, bytes compare as
    [unsigned char], and the scan stops at the first difference or at a
    common NUL.  C fixes only the sign of a non-zero result; the difference
    of the two bytes is the usual choice. *)
Fixpoint strcmp (a b : string) : Z :=
  match a, b with
  | EmptyString, EmptyString => 0
  | EmptyString, String d _ => 0 - code d
  | String c _, EmptyString => code c - 0
  | String c a', String d b' =>
      if code c =? code d
      then (if code c =? 0 then 0 else strcmp a' b')
      else code c - code d
  end.

(** A string constant or argument of C holds no NUL before its end. *)
Fixpoint c_string (s : string) : Prop :=
  match s with
  | EmptyString => True
  | String c s' => code c <> 0 /\ c_string s'
  end.

(** A [char] array read as a string.  A cell that was never written is
    indeterminate ([None]); reading it, or running off the array, has no
    defined result. *)
Fixpoint read_c_string (buf : list (option ascii)) : option string :=
  match buf with
  | [] => None
  | None :: _ => None
  | Some c :: rest =>
      if code c =? 0 then Some EmptyString
      else match read_c_string rest with
           | Some s => Some (String c s)
           | None => None
           end
  end.

End CString.

Import CString.

(** ** JSON documents *)

#[local] Unset Elimination Schemes.

Inductive json : Type :=
| JNull
| JBool (b : bool)
| JInt (n : Z)
| JDouble (x : float)
| JStr (s : string)
| JArr (items : list json)
| JObj (members : list (string * json)).

#[local] Set Elimination Schemes.

Module Json.

Fixpoint assoc (k : string) (l : list (string * json)) : option json :=
  match l with
  | [] => None
  | (k', v) :: l' => if String.eqb k k' then Some v else assoc k l'
  end.

(** The value of member [k] of an object. *)
Definition member (k : string) (j : json) : option json :=
  match j with
  | JObj l => assoc k l
  | _ => None
  end.

Definition has_key (k : string) (j : json) : bool :=
  match member k j with Some _ => true | None => false end.

(** The entries of an array. *)
Definition items (j : json) : list json :=
  match j with
  | JArr l => l
  | _ => []
  end.

End Json.

(** ** The plugin's memory *)

(** [struct ExamplePlugin] of example_c_plugin.c. *)
Record ExamplePlugin : Type := mkExamplePlugin {
  id : Z;                              (* uint64_t *)
  amplitude : float;                   (* double *)
  frequency : float;                   (* double *)
  output_path : list (option ascii)    (* char[256] *)
}.

(** Modelled from the spec: [RTSynConfigField], opaque in the header; the
    five variants of a configuration field (section 3). *)
Inductive RTSynConfigField : Type :=
| FieldText (key label : string) (default_value : option string)
| FieldInteger (key label : string) (default_value min max : Z)
| FieldFloat (key label : string) (default_value min max : float)
| FieldBoolean (key label : string) (default_value : bool)
| FieldFilePath (key label : string) (default_path : option string) (mode : Z).

(** What a heap block holds. *)
Inductive block : Type :=
| BUninit                                   (* fresh from malloc *)
| BInstance (p : ExamplePlugin)
| BString (s : string)                      (* NUL-terminated text *)
| BJson (j : json)                          (* the JSON text encoding [j] *)
| BField (f : RTSynConfigField)
| BSchema (fields : list RTSynConfigField).

Record world : Type := mkWorld {
  heap : gmap Z block;
  (** The allocator's answers to the coming requests: [true] is exhaustion.
      Once the list is used up every request succeeds. *)
  oom : list bool
}.

Definition NULL : Z := 0.

(** ** The monad of C calls *)

Definition M (A : Type) : Type := world -> option (A * world).

Definition ret {A} (a : A) : M A := fun w => Some (a, w).

Definition bind {A B} (m : M A) (k : A -> M B) : M B :=
  fun w => match m w with
           | Some (a, w') => k a w'
           | None => None
           end.

(** Undefined behaviour. *)
Definition undefined {A} : M A := fun _ => None.

Declare Scope c_scope.
Delimit Scope c_scope with C.
Notation "x <- m ;; k" := (bind m (fun x => k))
  (at level 100, m at next level, right associativity) : c_scope.
Notation "m ;; k" := (bind m (fun _ => k))
  (at level 100, right associativity) : c_scope.
Open Scope c_scope.

Module Mem.

(** An address that is neither [NULL] nor live. *)
Definition fresh_ptr (h : gmap Z block) : Z := fresh ({[NULL]} ∪ dom h).

(** A request to the allocator: [NULL] on exhaustion, otherwise a new
    block holding [b]. *)
Definition alloc (b : block) : M Z := fun w =>
  match oom w with
  | true :: answers => Some (NULL, mkWorld (heap w) answers)
  | answers =>
      let p := fresh_ptr (heap w) in
      Some (p, mkWorld (<[p := b]> (heap w)) (tail answers))
  end.

(** [malloc]: the new block is uninitialised. *)
Definition malloc : M Z := alloc BUninit.

Definition load (p : Z) : M block := fun w =>
  match heap w !! p with
  | Some b => Some (b, w)
  | None => None
  end.

Definition store (p : Z) (b : block) : M unit := fun w =>
  match heap w !! p with
  | Some _ => Some (tt, mkWorld (<[p := b]> (heap w)) (oom w))
  | None => None
  end.

(** Releasing a live block. *)
Definition release (p : Z) : M unit := fun w =>
  match heap w !! p with
  | Some _ => Some (tt, mkWorld (delete p (heap w)) (oom w))
  | None => None
  end.

(** [free] of the C library: nothing happens on [NULL]. *)
Definition free (p : Z) : M unit :=
  if p =? NULL then ret tt else release p.

(** [strdup]: a copy of [s] in a block of its own, [NULL] on exhaustion. *)
Definition strdup (s : string) : M Z :=
  p <- malloc ;;
  if p =? NULL then ret NULL
  else (store p (BString s) ;; ret p).

End Mem.

Import Mem.

(** ** The UI schema and behavior library (rtsyn_plugin_ui.h)

    The header declares these functions; their bodies are not part of the
    sources at hand, so each is modelled from the specification. *)

Module Ui.

Definition RTSYN_FILE_MODE_OPEN : Z := 0.
Definition RTSYN_FILE_MODE_SAVE : Z := 1.
Definition RTSYN_FILE_MODE_FOLDER : Z := 2.

Definition RTSYN_EXTENDABLE_NONE : Z := 0.
Definition RTSYN_EXTENDABLE_MANUAL : Z := 1.
Definition RTSYN_EXTENDABLE_AUTO : Z := 2.

(** A C [int] used as a truth value. *)
Definition truth (x : Z) : bool := negb (x =? 0).

Definition field_key (f : RTSynConfigField) : string :=
  match f with
  | FieldText k _ _ | FieldInteger k _ _ _ _ | FieldFloat k _ _ _ _
  | FieldBoolean k _ _ | FieldFilePath k _ _ _ => k
  end.

Definition optional_text (s : option string) : json :=
  match s with
  | Some t => JStr t
  | None => JNull
  end.

(** Modelled from the spec: the entry of one field in the serialized
    schema (section 4.3 and section 6): its discriminant tag, [key],
    [label], [default] and, for the bounded and file variants, the bounds or
    the mode. *)
Definition field_document (f : RTSynConfigField) : json :=
  match f with
  | FieldText k l d =>
      JObj [("type", JStr "text"); ("key", JStr k); ("label", JStr l);
            ("default", optional_text d)]
  | FieldInteger k l d lo hi =>
      JObj [("type", JStr "integer"); ("key", JStr k); ("label", JStr l);
            ("default", JInt d); ("min", JInt lo); ("max", JInt hi)]
  | FieldFloat k l d lo hi =>
      JObj [("type", JStr "float"); ("key", JStr k); ("label", JStr l);
            ("default", JDouble d); ("min", JDouble lo); ("max", JDouble hi)]
  | FieldBoolean k l d =>
      JObj [("type", JStr "boolean"); ("key", JStr k); ("label", JStr l);
            ("default", JBool d)]
  | FieldFilePath k l d m =>
      JObj [("type", JStr "filepath"); ("key", JStr k); ("label", JStr l);
            ("default", optional_text d); ("mode", JInt m)]
  end.

(** Modelled from the spec: the serialized schema is an object with a
    [fields] array holding the entries in insertion order. *)
Definition schema_document (fields : list RTSynConfigField) : json :=
  JObj [("fields", JArr (map field_document fields))].

(** The keys of the entries of a serialized schema, in the order in which
    the document lists them; [None] for an entry without a string [key]. *)
Definition listed_keys (doc : json) : list (option string) :=
  match Json.member "fields" doc with
  | Some arr =>
      map (fun e => match Json.member "key" e with
                    | Some (JStr k) => Some k
                    | _ => None
                    end) (Json.items arr)
  | None => []
  end.

(** Modelled from the spec: [rtsyn_ui_schema_new] returns an empty schema
    owned by the caller. *)
Definition rtsyn_ui_schema_new : M Z := alloc (BSchema []).

(** Modelled from the spec: [rtsyn_ui_field_text], the constructor of the
    Text variant.  The constructors are factories with no effect beyond
    allocation; exhaustion yields [NULL]; no validity check is made on key,
    range or mode. *)
Definition rtsyn_ui_field_text (key label : string)
    (default_value : option string) : M Z :=
  alloc (BField (FieldText key label default_value)).

(** Modelled from the spec: [rtsyn_ui_field_integer], the constructor of the
    Integer variant; the default is not checked against the bounds. *)
Definition rtsyn_ui_field_integer (key label : string)
    (default_value min max : Z) : M Z :=
  alloc (BField (FieldInteger key label default_value min max)).

(** Modelled from the spec: [rtsyn_ui_field_float], the constructor of the
    Float variant; the default is not checked against the bounds. *)
Definition rtsyn_ui_field_float (key label : string)
    (default_value min max : float) : M Z :=
  alloc (BField (FieldFloat key label default_value min max)).

(** Modelled from the spec: [rtsyn_ui_field_boolean], the constructor of the
    Boolean variant; the header reads 0 as false and any other value as
    true. *)
Definition rtsyn_ui_field_boolean (key label : string)
    (default_value : Z) : M Z :=
  alloc (BField (FieldBoolean key label (truth default_value))).

(** Modelled from the spec: [rtsyn_ui_field_filepath], the constructor of
    the FilePath variant; the mode is kept as it is passed. *)
Definition rtsyn_ui_field_filepath (key label : string)
    (default_path : option string) (mode : Z) : M Z :=
  alloc (BField (FieldFilePath key label default_path mode)).

(** Modelled from the spec: [rtsyn_ui_field_free]; a field may be released
    on its own only while no schema owns it. *)
Definition rtsyn_ui_field_free (field : Z) : M unit :=
  b <- load field ;;
  match b with
  | BField _ => release field
  | _ => undefined
  end.

(** Modelled from the spec: [rtsyn_ui_schema_add_field] appends the field at the end of the
    schema's sequence and consumes it: the field's handle is dead
    afterwards.  The spec gives no meaning to a call on a handle that is
    not a live schema or a live field (a field that could not be created
    must not be added). *)
Definition rtsyn_ui_schema_add_field (schema field : Z) : M unit :=
  s <- load schema ;;
  f <- load field ;;
  match s, f with
  | BSchema fields, BField x =>
      release field ;;
      store schema (BSchema (fields ++ [x]))
  | _, _ => undefined
  end.

(** Modelled from the spec: [rtsyn_ui_schema_to_json] returns a new
    document for the schema and leaves the schema as it is; exhaustion
    yields [NULL]. *)
Definition rtsyn_ui_schema_to_json (schema : Z) : M Z :=
  s <- load schema ;;
  match s with
  | BSchema fields => alloc (BJson (schema_document fields))
  | _ => undefined
  end.

(** Modelled from the spec: [rtsyn_ui_schema_free] releases the schema
    together with every field it owns. *)
Definition rtsyn_ui_schema_free (schema : Z) : M unit :=
  s <- load schema ;;
  match s with
  | BSchema _ => release schema
  | _ => undefined
  end.

(** The three policies for extendable inputs. *)
Inductive extendable : Type := ExtNone | ExtManual | ExtAuto.

Definition extendable_code (e : extendable) : Z :=
  match e with
  | ExtNone => RTSYN_EXTENDABLE_NONE
  | ExtManual => RTSYN_EXTENDABLE_MANUAL
  | ExtAuto => RTSYN_EXTENDABLE_AUTO
  end.

Definition extendable_of_code (c : Z) : option extendable :=
  if c =? RTSYN_EXTENDABLE_NONE then Some ExtNone
  else if c =? RTSYN_EXTENDABLE_MANUAL then Some ExtManual
  else if c =? RTSYN_EXTENDABLE_AUTO then Some ExtAuto
  else None.

Definition extendable_name (e : extendable) : string :=
  match e with
  | ExtNone => "none"
  | ExtManual => "manual"
  | ExtAuto => "auto"
  end.

(** Modelled from the spec: the behavior document (section 4.4 and
    section 6).  The pattern member is present only for [auto]; a pattern
    passed with [none] or [manual] is left out. *)
Definition behavior_document (supports_start_stop supports_restart : Z)
    (e : extendable) (extendable_inputs_pattern : option string)
    (loads_started connection_dependent : Z) : json :=
  JObj ([("supports_start_stop", JBool (truth supports_start_stop));
         ("supports_restart", JBool (truth supports_restart));
         ("extendable_inputs", JStr (extendable_name e))]
        ++ match e with
           | ExtAuto =>
               [("extendable_inputs_pattern",
                 optional_text extendable_inputs_pattern)]
           | _ => []
           end
        ++ [("loads_started", JBool (truth loads_started));
            ("connection_dependent", JBool (truth connection_dependent))]).

(** Modelled from the spec: [rtsyn_behavior_to_json] has no state of its
    own and returns a new document; the spec names no policy besides the
    three constants of the header. *)
Definition rtsyn_behavior_to_json (supports_start_stop supports_restart : Z)
    (extendable_inputs_type : Z) (extendable_inputs_pattern : option string)
    (loads_started connection_dependent : Z) : M Z :=
  match extendable_of_code extendable_inputs_type with
  | Some e =>
      alloc (BJson (behavior_document supports_start_stop supports_restart
                      e extendable_inputs_pattern
                      loads_started connection_dependent))
  | None => undefined
  end.

(** Modelled from the spec: [rtsyn_string_free], the single release
    operation for a string or document handed to the host (section 4.1). *)
Definition rtsyn_string_free (s : Z) : M unit :=
  b <- load s ;;
  match b with
  | BString _ | BJson _ => release s
  | _ => undefined
  end.

End Ui.

Import Ui.

(** ** The example plugin (examples/example_c_plugin.c) *)

Definition UINT64_MAX : Z := 2 ^ 64 - 1.

(** [char output_path[256]] after [output_path[0] = '\0'] on a block that
    came from [malloc]. *)
Definition output_path_init : list (option ascii) :=
  Some "000"%char :: repeat None 255.

Definition load_plugin (instance : Z) : M ExamplePlugin :=
  b <- load instance ;;
  match b with
  | BInstance p => ret p
  | _ => undefined
  end.

Definition create (id : Z) : M Z :=
  plugin <- malloc ;;
  if plugin =? NULL then ret NULL
  else
    (store plugin
       (BInstance {| id := id;
                     amplitude := 1.0;
                     frequency := 440.0;
                     output_path := output_path_init |}) ;;
     ret plugin).

Definition destroy (instance : Z) : M unit :=
  if negb (instance =? NULL) then free instance else ret tt.

Definition meta_text : string :=
  "{"
  +:+ quoted "name" +:+ ":" +:+ quoted "Example C Plugin" +:+ ","
  +:+ quoted "fixed_vars" +:+ ":[],"
  +:+ quoted "default_vars" +:+ ":["
  +:+ "{" +:+ quoted "amplitude" +:+ ":1.0},"
  +:+ "{" +:+ quoted "frequency" +:+ ":440.0}"
  +:+ "]"
  +:+ "}".

Definition meta_json (instance : Z) : M Z := strdup meta_text.

Definition inputs_text : string := "[]".

Definition inputs_json (instance : Z) : M Z := strdup inputs_text.

Definition outputs_text : string :=
  "["
  +:+ "{" +:+ quoted "id" +:+ ":" +:+ quoted "signal" +:+ "}"
  +:+ "]".

Definition outputs_json (instance : Z) : M Z := strdup outputs_text.

Definition ui_schema_json (instance : Z) : M Z :=
  schema <- rtsyn_ui_schema_new ;;
  amplitude_field <- rtsyn_ui_field_float "amplitude" "Amplitude"
                       1.0 0.0 10.0 ;;
  rtsyn_ui_schema_add_field schema amplitude_field ;;
  freq_field <- rtsyn_ui_field_float "frequency" "Frequency (Hz)"
                  440.0 20.0 20000.0 ;;
  rtsyn_ui_schema_add_field schema freq_field ;;
  path_field <- rtsyn_ui_field_filepath "output_path" "Output File"
                  None RTSYN_FILE_MODE_SAVE ;;
  rtsyn_ui_schema_add_field schema path_field ;;
  json <- rtsyn_ui_schema_to_json schema ;;
  rtsyn_ui_schema_free schema ;;
  ret json.

Definition behavior_json (instance : Z) : M Z :=
  rtsyn_behavior_to_json 1 1 RTSYN_EXTENDABLE_NONE None 1 0.

Definition process (instance : Z) (tick : Z) (period_seconds : float) : M Z :=
  ret 0.

Definition set_input (instance : Z) (port : string) (value : float) : M unit :=
  ret tt.

Definition get_output (instance : Z) (port : string) : M float :=
  if strcmp port "signal" =? 0 then
    (plugin <- load_plugin instance ;;
     ret (amplitude plugin))
  else ret 0.0%float.

Definition set_config_json (instance : Z) (json : string) : M Z :=
  ret 0.

(** ** Call sequences of a host *)

(** The scenario of the spec's section 8: create, configure, tick, read the
    output, destroy.  The result is the status of [set_config_json], the
    status of [process] and the value read from the port. *)
Definition amplitude_payload : string :=
  "{" +:+ quoted "amplitude" +:+ ":2.0}".

Definition scenario : M (Z * Z * float) :=
  instance <- create 42 ;;
  configured <- set_config_json instance amplitude_payload ;;
  ticked <- process instance 0 0.02 ;;
  signal <- get_output instance "signal" ;;
  destroy instance ;;
  ret (configured, ticked, signal).

(** The calls that may come between two metadata queries. *)
Inductive call : Type :=
| SetConfigJson (json : string)
| SetInput (port : string) (value : float)
| Process (tick : Z) (period_seconds : float).

Definition perform (instance : Z) (c : call) : M unit :=
  match c with
  | SetConfigJson json => set_config_json instance json ;; ret tt
  | SetInput port value => set_input instance port value
  | Process tick period_seconds => process instance tick period_seconds ;; ret tt
  end.

Fixpoint perform_all (instance : Z) (calls : list call) : M unit :=
  match calls with
  | [] => ret tt
  | c :: rest => perform instance c ;; perform_all instance rest
  end.

(** Adding the fields behind the handles [fields] to a schema, in order. *)
Fixpoint add_fields (schema : Z) (fields : list Z) : M unit :=
  match fields with
  | [] => ret tt
  | f :: rest => rtsyn_ui_schema_add_field schema f ;; add_fields schema rest
  end.

(** The next request to the allocator will be answered by exhaustion. *)
Definition exhausted (w : world) : bool := hd false (oom w).

(** None of the next [n] requests will be answered by exhaustion. *)
Definition plentiful (n : nat) (w : world) : Prop := true ∉ take n (oom w).

Definition empty_world : world := mkWorld ∅ [].

(** The state [create] gives to a new instance. *)
Definition fresh_instance (id : Z) : ExamplePlugin :=
  {| id := id; amplitude := 1.0; frequency := 440.0;
     output_path := output_path_init |}.

(** ** Reading JSON text

    The documents of [meta_json], [inputs_json] and [outputs_json] are C
    string literals.  What such a text says is what a JSON reader makes of
    it: objects, arrays, strings with the one-character escapes, [true],
    [false], [null], integers, and decimal numbers with a fraction, which
    read as the [double] nearest to them.  Exponents, unicode escapes and
    numbers beyond the exactly convertible range are not read. *)

Module JsonText.

Inductive token : Type :=
| TLBrace | TRBrace | TLBracket | TRBracket | TColon | TComma
| TString (s : string)
| TAtom (j : json).

(** A number while its digits are being read. *)
Record number : Type := mkNumber {
  negative : bool;
  leading_zero : bool;
  int_digits : nat;
  mantissa : Z;
  fraction : option nat
}.

Inductive lex_state : Type :=
| Idle
| InString (acc : list ascii)
| Escaped (acc : list ascii)
| InNumber (n : number)
| InWord (acc : list ascii).

Definition backslash : ascii := "092"%char.

Definition quote : ascii := "034"%char.

Definition digit (c : ascii) : option Z :=
  if (48 <=? code c) && (code c <=? 57) then Some (code c - 48) else None.

Definition is_space (c : ascii) : bool :=
  (code c =? 32) || (code c =? 9) || (code c =? 10) || (code c =? 13).

Definition is_letter (c : ascii) : bool :=
  (97 <=? code c) && (code c <=? 122).

Definition punct (c : ascii) : option token :=
  if Ascii.eqb c "{" then Some TLBrace
  else if Ascii.eqb c "}" then Some TRBrace
  else if Ascii.eqb c "[" then Some TLBracket
  else if Ascii.eqb c "]" then Some TRBracket
  else if Ascii.eqb c ":" then Some TColon
  else if Ascii.eqb c "," then Some TComma
  else None.

Definition unescape (c : ascii) : option ascii :=
  if Ascii.eqb c quote then Some quote
  else if Ascii.eqb c backslash then Some backslash
  else if Ascii.eqb c "/" then Some "/"%char
  else if Ascii.eqb c "b" then Some "008"%char
  else if Ascii.eqb c "f" then Some "012"%char
  else if Ascii.eqb c "n" then Some "010"%char
  else if Ascii.eqb c "r" then Some "013"%char
  else if Ascii.eqb c "t" then Some "009"%char
  else None.

(** A natural number below 2^63 as a [double]. *)
Definition double_of_Z (z : Z) : float := PrimFloat.of_uint63 (Uint63.of_Z z).

(** The value of a number once its last digit is read.  With a fraction of
    [k] digits the value is [mantissa / 10^k]; both are exact as [double]
    for a mantissa below 2^53 and [k <= 18], so the quotient is the
    [double] nearest to the decimal. *)
Definition number_value (n : number) : option json :=
  if (int_digits n =? 0)%nat then None
  else if leading_zero n && (1 <? int_digits n)%nat then None
  else match fraction n with
       | None => Some (JInt (if negative n then - mantissa n else mantissa n))
       | Some k =>
           if (k =? 0)%nat then None
           else if (mantissa n <? 2 ^ 53) && (k <=? 18)%nat then
             let x := PrimFloat.div (double_of_Z (mantissa n))
                                    (double_of_Z (10 ^ Z.of_nat k)) in
             Some (JDouble (if negative n then PrimFloat.opp x else x))
           else None
       end.

Definition more_number (n : number) (c : ascii) : option number :=
  match digit c with
  | Some d =>
      match fraction n with
      | None =>
          Some (mkNumber (negative n)
                  (if (int_digits n =? 0)%nat then d =? 0 else leading_zero n)
                  (S (int_digits n)) (10 * mantissa n + d) None)
      | Some k =>
          Some (mkNumber (negative n) (leading_zero n) (int_digits n)
                  (10 * mantissa n + d) (Some (S k)))
      end
  | None =>
      match fraction n with
      | None =>
          if (int_digits n =? 0)%nat then None
          else Some (mkNumber (negative n) (leading_zero n) (int_digits n)
                       (mantissa n) (Some 0%nat))
      | Some _ => None
      end
  end.

Definition word_value (acc : list ascii) : option json :=
  let s := string_of_list_ascii (rev acc) in
  if String.eqb s "true" then Some (JBool true)
  else if String.eqb s "false" then Some (JBool false)
  else if String.eqb s "null" then Some JNull
  else None.

(** The first character of a token. *)
Definition start (c : ascii) : option (lex_state * list token) :=
  if is_space c then Some (Idle, [])
  else match punct c with
       | Some t => Some (Idle, [t])
       | None =>
           if Ascii.eqb c quote then Some (InString [], [])
           else if Ascii.eqb c "-"
           then Some (InNumber (mkNumber true false 0 0 None), [])
           else match digit c with
                | Some d => Some (InNumber (mkNumber false (d =? 0) 1 d None), [])
                | None => if is_letter c then Some (InWord [c], []) else None
                end
       end.

Definition step (st : lex_state) (c : ascii) : option (lex_state * list token) :=
  match st with
  | Idle => start c
  | InString acc =>
      if Ascii.eqb c quote
      then Some (Idle, [TString (string_of_list_ascii (rev acc))])
      else if Ascii.eqb c backslash then Some (Escaped acc, [])
      else if code c <? 32 then None
      else Some (InString (c :: acc), [])
  | Escaped acc =>
      match unescape c with
      | Some d => Some (InString (d :: acc), [])
      | None => None
      end
  | InNumber n =>
      if (match digit c with Some _ => true | None => false end)
         || Ascii.eqb c "."
      then match more_number n c with
           | Some n' => Some (InNumber n', [])
           | None => None
           end
      else match number_value n, start c with
           | Some v, Some (st', out) => Some (st', TAtom v :: out)
           | _, _ => None
           end
  | InWord acc =>
      if is_letter c then Some (InWord (c :: acc), [])
      else match word_value acc, start c with
           | Some v, Some (st', out) => Some (st', TAtom v :: out)
           | _, _ => None
           end
  end.

Definition finish (st : lex_state) : option (list token) :=
  match st with
  | Idle => Some []
  | InString _ | Escaped _ => None
  | InNumber n =>
      match number_value n with Some v => Some [TAtom v] | None => None end
  | InWord acc =>
      match word_value acc with Some v => Some [TAtom v] | None => None end
  end.

Fixpoint lex (st : lex_state) (s : string) : option (list token) :=
  match s with
  | EmptyString => finish st
  | String c rest =>
      match step st c with
      | Some (st', out) =>
          match lex st' rest with
          | Some toks => Some (out ++ toks)
          | None => None
          end
      | None => None
      end
  end.

(** One value, the entries of an array after its bracket, the members of an
    object after its brace; each returns what is left of the tokens. *)
Fixpoint parse_value (fuel : nat) (toks : list token)
    : option (json * list token) :=
  match fuel with
  | O => None
  | S f =>
      match toks with
      | TString s :: rest => Some (JStr s, rest)
      | TAtom j :: rest => Some (j, rest)
      | TLBracket :: TRBracket :: rest => Some (JArr [], rest)
      | TLBracket :: rest =>
          match parse_items f rest with
          | Some (l, rest') => Some (JArr l, rest')
          | None => None
          end
      | TLBrace :: TRBrace :: rest => Some (JObj [], rest)
      | TLBrace :: rest =>
          match parse_members f rest with
          | Some (l, rest') => Some (JObj l, rest')
          | None => None
          end
      | _ => None
      end
  end
with parse_items (fuel : nat) (toks : list token)
    : option (list json * list token) :=
  match fuel with
  | O => None
  | S f =>
      match parse_value f toks with
      | Some (v, TComma :: rest) =>
          match parse_items f rest with
          | Some (l, rest') => Some (v :: l, rest')
          | None => None
          end
      | Some (v, TRBracket :: rest) => Some ([v], rest)
      | _ => None
      end
  end
with parse_members (fuel : nat) (toks : list token)
    : option (list (string * json) * list token) :=
  match fuel with
  | O => None
  | S f =>
      match toks with
      | TString k :: TColon :: rest =>
          match parse_value f rest with
          | Some (v, TComma :: rest') =>
              match parse_members f rest' with
              | Some (l, rest'') => Some ((k, v) :: l, rest'')
              | None => None
              end
          | Some (v, TRBrace :: rest') => Some ([(k, v)], rest')
          | _ => None
          end
      | _ => None
      end
  end.

(** The value a whole text denotes; [None] when the text is not one JSON
    value.  Every step of the parser uses up a token, so twice their number
    is fuel enough. *)
Definition parse (text : string) : option json :=
  match lex Idle text with
  | Some toks =>
      match parse_value (2 * length toks + 2) toks with
      | Some (v, []) => Some v
      | _ => None
      end
  | None => None
  end.

End JsonText.

(** A metadata query answers with the document [doc]: after any calls, from
    any world, it returns [NULL] exactly when the allocator reports
    exhaustion, and otherwise a new block whose text reads as [doc]; every
    block that was live before is still live with the same contents. *)
Definition answers_with (q : Z -> M Z) (doc : json)
    (instance : Z) (calls : list call) (w : world) : Prop :=
  exists p w',
    (perform_all instance calls ;; q instance) w = Some (p, w')
    /\ (p = NULL <-> exhausted w = true)
    /\ (p <> NULL ->
        heap w !! p = None
        /\ exists text,
             heap w' !! p = Some (BString text)
             /\ JsonText.parse text = Some doc)
    /\ (forall a b, heap w !! a = Some b -> heap w' !! a = Some b).

(** Every query that hands a document to the host. *)
Definition document_queries : list (Z -> M Z) :=
  [meta_json; inputs_json; outputs_json; ui_schema_json; behavior_json].

(** Blocks that hold a string or a document. *)
Definition is_document (b : block) : bool :=
  match b with
  | BString _ | BJson _ => true
  | _ => false
  end.

(** The fields the example plugin declares in [ui_schema_json]. *)
Definition example_fields : list RTSynConfigField :=
  [FieldFloat "amplitude" "Amplitude" 1.0 0.0 10.0;
   FieldFloat "frequency" "Frequency (Hz)" 440.0 20.0 20000.0;
   FieldFilePath "output_path" "Output File" None RTSYN_FILE_MODE_SAVE].

(** The behavior the example plugin declares in [behavior_json]. *)
Definition example_behavior : json :=
  behavior_document 1 1 ExtNone None 1 0.

(** A world with an empty schema at address 1 and two fields, not yet added,
    at addresses 2 and 3. *)
Definition text_field : RTSynConfigField := FieldText "path" "Output File" None.

Definition freq_field : RTSynConfigField :=
  FieldFloat "freq" "Frequency (Hz)" 440.0 20.0 20000.0.

Definition builder_world : world :=
  mkWorld (<[1 := BSchema []]> (<[2 := BField text_field]>
             (<[3 := BField freq_field]> ∅))) [].

(** ** The dispatch table *)

Module Api.

(** [PluginApi] of example_c_plugin.c: one entry point per capability. *)
Record PluginApi : Type := mkPluginApi {
  create : Z -> M Z;
  destroy : Z -> M unit;
  meta_json : Z -> M Z;
  inputs_json : Z -> M Z;
  outputs_json : Z -> M Z;
  process : Z -> Z -> float -> M Z;
  set_input : Z -> string -> float -> M unit;
  get_output : Z -> string -> M float;
  set_config_json : Z -> string -> M Z;
  ui_schema_json : Z -> M Z;
  behavior_json : Z -> M Z
}.

End Api.

(** The table the example plugin exports. *)
Definition rtsyn_plugin_api : Api.PluginApi :=
  {| Api.create := create;
     Api.destroy := destroy;
     Api.meta_json := meta_json;
     Api.inputs_json := inputs_json;
     Api.outputs_json := outputs_json;
     Api.process := process;
     Api.set_input := set_input;
     Api.get_output := get_output;
     Api.set_config_json := set_config_json;
     Api.ui_schema_json := ui_schema_json;
     Api.behavior_json := behavior_json |}.

(** One call of a host through the table, with the arguments it passes. *)
Inductive host_call : Type :=
| HostCreate (id : Z)
| HostDestroy (instance : Z)
| HostMetaJson (instance : Z)
| HostInputsJson (instance : Z)
| HostOutputsJson (instance : Z)
| HostProcess (instance tick : Z) (period_seconds : float)
| HostSetInput (instance : Z) (port : string) (value : float)
| HostGetOutput (instance : Z) (port : string)
| HostSetConfigJson (instance : Z) (json : string)
| HostUiSchemaJson (instance : Z)
| HostBehaviorJson (instance : Z).

Definition dispatch (api : Api.PluginApi) (c : host_call) : M unit :=
  match c with
  | HostCreate id => Api.create api id ;; ret tt
  | HostDestroy instance => Api.destroy api instance
  | HostMetaJson instance => Api.meta_json api instance ;; ret tt
  | HostInputsJson instance => Api.inputs_json api instance ;; ret tt
  | HostOutputsJson instance => Api.outputs_json api instance ;; ret tt
  | HostProcess instance tick period_seconds =>
      Api.process api instance tick period_seconds ;; ret tt
  | HostSetInput instance port value => Api.set_input api instance port value
  | HostGetOutput instance port => Api.get_output api instance port ;; ret tt
  | HostSetConfigJson instance json =>
      Api.set_config_json api instance json ;; ret tt
  | HostUiSchemaJson instance => Api.ui_schema_json api instance ;; ret tt
  | HostBehaviorJson instance => Api.behavior_json api instance ;; ret tt
  end.

(** A host driving a plugin: any calls, in any order, with any arguments. *)
Fixpoint drive (api : Api.PluginApi) (calls : list host_call) : M unit :=
  match calls with
  | [] => ret tt
  | c :: rest => dispatch api c ;; drive api rest
  end.

(** ** What a schema declares *)

(** The default a schema declares for the Float field [k]. *)
Fixpoint float_default (k : string) (fields : list RTSynConfigField)
    : option float :=
  match fields with
  | [] => None
  | FieldFloat key _ d _ _ :: rest =>
      if String.eqb k key then Some d else float_default k rest
  | _ :: rest => float_default k rest
  end.

(** The default a schema declares for the FilePath field [k]. *)
Fixpoint path_default (k : string) (fields : list RTSynConfigField)
    : option (option string) :=
  match fields with
  | [] => None
  | FieldFilePath key _ d _ :: rest =>
      if String.eqb k key then Some d else path_default k rest
  | _ :: rest => path_default k rest
  end.

(** The default of a bounded field lies within its bounds, and the mode of a
    file field is one of the three constants of the header. *)
Definition field_in_range (f : RTSynConfigField) : bool :=
  match f with
  | FieldInteger _ _ d lo hi => (lo <=? d) && (d <=? hi)
  | FieldFloat _ _ d lo hi => PrimFloat.leb lo d && PrimFloat.leb d hi
  | FieldFilePath _ _ _ m =>
      (m =? RTSYN_FILE_MODE_OPEN) || (m =? RTSYN_FILE_MODE_SAVE)
      || (m =? RTSYN_FILE_MODE_FOLDER)
  | _ => true
  end.

(** A world with two live instances, at addresses 1 and 2. *)
Definition two_instances : world :=
  mkWorld (<[1 := BInstance (fresh_instance 42)]>
             (<[2 := BInstance (fresh_instance 7)]> ∅)) [].

(** A host session: create, configure, tick, read, query, and create again. *)
Definition session : list host_call :=
  [HostCreate 42; HostSetConfigJson 1 amplitude_payload; HostProcess 1 0 0.02;
   HostGetOutput 1 "signal"; HostMetaJson 1; HostUiSchemaJson 1;
   HostSetInput 1 "gain" 0.5; HostCreate 7; HostBehaviorJson NULL].

(** A host asking for documents: each request is a query of the table and
    the handle it is called on; the result is the list of returned
    pointers. *)
Fixpoint ask (requests : list ((Z -> M Z) * Z)) : M (list Z) :=
  match requests with
  | [] => ret []
  | (q, instance) :: rest =>
      p <- q instance ;;
      ps <- ask rest ;;
      ret (p :: ps)
  end.

(** * Properties *)

(** ** The monad and the memory *)

Section MonadFacts.

Context {A B : Type}.

Lemma bind_ret (a : A) (k : A -> M B) (w : world) :
  (x <- ret a ;; k x) w = k a w.
Proof. reflexivity. Qed.

Lemma bind_some (m : M A) (k : A -> M B) (w w' : world) (a : A) :
  m w = Some (a, w') -> (x <- m ;; k x) w = k a w'.
Proof. intros E. unfold bind. now rewrite E. Qed.

Lemma bind_none (m : M A) (k : A -> M B) (w : world) :
  m w = None -> (x <- m ;; k x) w = None.
Proof. intros E. unfold bind. now rewrite E. Qed.

Lemma bind_inv (m : M A) (k : A -> M B) (w w2 : world) (b : B) :
  (x <- m ;; k x) w = Some (b, w2) ->
  exists a w1, m w = Some (a, w1) /\ k a w1 = Some (b, w2).
Proof.
  unfold bind. destruct (m w) as [[a w1]|] eqn:E; [|discriminate].
  intros H. now exists a, w1.
Qed.

End MonadFacts.

Section MemFacts.

Implicit Types (h : gmap Z block) (w : world) (p : Z) (b : block).

Lemma fresh_ptr_not_null h : fresh_ptr h <> NULL.
Proof.
  unfold fresh_ptr. intros E.
  apply (is_fresh ({[NULL]} ∪ dom h)). rewrite E. set_solver.
Qed.

Lemma fresh_ptr_fresh h : h !! fresh_ptr h = None.
Proof.
  apply not_elem_of_dom. unfold fresh_ptr. intros E.
  apply (is_fresh ({[NULL]} ∪ dom h)). set_solver.
Qed.

Lemma fresh_ptr_ne h p b : h !! p = Some b -> fresh_ptr h <> p.
Proof. intros E <-. rewrite fresh_ptr_fresh in E. discriminate. Qed.

(** The two answers of the allocator. *)
Lemma alloc_exhausted b w :
  exhausted w = true ->
  alloc b w = Some (NULL, mkWorld (heap w) (tail (oom w))).
Proof.
  unfold exhausted, alloc. destruct (oom w) as [|[|] ans]; simpl; try discriminate.
  reflexivity.
Qed.

Lemma alloc_granted b w :
  exhausted w = false ->
  alloc b w = Some (fresh_ptr (heap w),
                    mkWorld (<[fresh_ptr (heap w) := b]> (heap w)) (tail (oom w))).
Proof.
  unfold exhausted, alloc. destruct (oom w) as [|[|] ans]; simpl; try discriminate;
    reflexivity.
Qed.

Lemma plentiful_S n w :
  plentiful (S n) w ->
  exhausted w = false /\
  forall h, plentiful n (mkWorld h (tail (oom w))).
Proof.
  unfold plentiful, exhausted. destruct (oom w) as [|a ans]; simpl.
  - intros _. split; [reflexivity|]. intros _. rewrite take_nil. apply not_elem_of_nil.
  - intros H. split.
    + destruct a; [|reflexivity]. exfalso. apply H. left.
    + intros _ Hin. apply H. now right.
Qed.

Lemma plentiful_empty n h : plentiful n (mkWorld h []).
Proof. unfold plentiful. simpl. rewrite take_nil. apply not_elem_of_nil. Qed.

Lemma load_live p b w : heap w !! p = Some b -> load p w = Some (b, w).
Proof. intros E. unfold load. now rewrite E. Qed.

Lemma load_dead p w : heap w !! p = None -> load p w = None.
Proof. intros E. unfold load. now rewrite E. Qed.

Lemma store_live p b b' w :
  heap w !! p = Some b ->
  store p b' w = Some (tt, mkWorld (<[p := b']> (heap w)) (oom w)).
Proof. intros E. unfold store. now rewrite E. Qed.

Lemma release_live p b w :
  heap w !! p = Some b ->
  release p w = Some (tt, mkWorld (delete p (heap w)) (oom w)).
Proof. intros E. unfold release. now rewrite E. Qed.

Lemma release_dead p w : heap w !! p = None -> release p w = None.
Proof. intros E. unfold release. now rewrite E. Qed.

(** A block that is allocated and released again leaves the heap as it
    was. *)
Lemma delete_insert_fresh h p b : h !! p = None -> delete p (<[p := b]> h) = h.
Proof. intros E. rewrite delete_insert_eq. now apply delete_id. Qed.

(** [strdup] either fails with [NULL] and an untouched heap, or returns a
    fresh block holding the text. *)
Lemma strdup_exhausted s w :
  exhausted w = true ->
  strdup s w = Some (NULL, mkWorld (heap w) (tail (oom w))).
Proof.
  intros E. unfold strdup, malloc. rewrite (bind_some _ _ _ _ _ (alloc_exhausted _ _ E)).
  reflexivity.
Qed.

Lemma strdup_granted s w :
  exhausted w = false ->
  strdup s w = Some (fresh_ptr (heap w),
                     mkWorld (<[fresh_ptr (heap w) := BString s]> (heap w))
                             (tail (oom w))).
Proof.
  intros E. unfold strdup, malloc. rewrite (bind_some _ _ _ _ _ (alloc_granted _ _ E)).
  destruct (Z.eqb_spec (fresh_ptr (heap w)) NULL) as [N|_].
  - now apply fresh_ptr_not_null in N.
  - erewrite bind_some by (apply store_live with (b := BUninit); simpl; apply lookup_insert_eq).
    simpl. unfold ret. now rewrite insert_insert_eq.
Qed.

End MemFacts.

(** Two distinct literals of type [double] are distinct values. *)
Lemma double_neq (x y : float) : PrimFloat.eqb x y = false -> PrimFloat.eqb x x = true -> x <> y.
Proof. intros Hxy Hxx E. rewrite <- E in Hxy. congruence. Qed.

(** ** C strings *)

Lemma code_inj (c d : ascii) : code c = code d -> c = d.
Proof.
  unfold code. intros E. apply N2Z.inj in E.
  rewrite <- (ascii_N_embedding c), <- (ascii_N_embedding d). now rewrite E.
Qed.

(** On well-formed strings [strcmp] returns 0 exactly on equal strings. *)
Lemma strcmp_eq (a b : string) :
  c_string a -> c_string b -> strcmp a b = 0 -> a = b.
Proof.
  revert b. induction a as [|c a IH]; intros [|d b]; simpl.
  - reflexivity.
  - intros _ [Hd _] E. lia.
  - intros [Hc _] _ E. lia.
  - intros [Hc Ha] [Hd Hb].
    destruct (Z.eqb_spec (code c) (code d)) as [Ecd|Ncd].
    + destruct (Z.eqb_spec (code c) 0) as [E0|_]; [contradiction|].
      intros E. f_equal; [now apply code_inj | now apply IH].
    + intros E. lia.
Qed.

Lemma strcmp_refl (a : string) : strcmp a a = 0.
Proof.
  induction a as [|c a IH]; simpl; [reflexivity|].
  rewrite Z.eqb_refl. now destruct (code c =? 0).
Qed.

(** ** Instances: create, destroy, ports, configuration *)

Lemma create_exhausted (n : Z) (w : world) :
  exhausted w = true ->
  create n w = Some (NULL, mkWorld (heap w) (tail (oom w))).
Proof.
  intros E. unfold create, malloc.
  rewrite (bind_some _ _ _ _ _ (alloc_exhausted _ _ E)). reflexivity.
Qed.

Lemma create_granted (n : Z) (w : world) :
  exhausted w = false ->
  create n w =
    Some (fresh_ptr (heap w),
          mkWorld (<[fresh_ptr (heap w) := BInstance (fresh_instance n)]> (heap w))
                  (tail (oom w))).
Proof.
  intros E. unfold create, malloc.
  rewrite (bind_some _ _ _ _ _ (alloc_granted _ _ E)).
  destruct (Z.eqb_spec (fresh_ptr (heap w)) NULL) as [N|_].
  - now apply fresh_ptr_not_null in N.
  - erewrite bind_some
      by (apply store_live with (b := BUninit); simpl; apply lookup_insert_eq).
    simpl. unfold ret, fresh_instance. now rewrite insert_insert_eq.
Qed.

Lemma load_plugin_live (instance : Z) (p : ExamplePlugin) (w : world) :
  heap w !! instance = Some (BInstance p) ->
  load_plugin instance w = Some (p, w).
Proof.
  intros E. unfold load_plugin. now rewrite (bind_some _ _ _ _ _ (load_live _ _ _ E)).
Qed.

Lemma get_output_signal (instance : Z) (p : ExamplePlugin) (w : world) :
  heap w !! instance = Some (BInstance p) ->
  get_output instance "signal" w = Some (amplitude p, w).
Proof.
  intros E. unfold get_output. rewrite strcmp_refl. simpl.
  now rewrite (bind_some _ _ _ _ _ (load_plugin_live _ _ _ E)).
Qed.

Lemma destroy_live (instance : Z) (b : block) (w : world) :
  instance <> NULL ->
  heap w !! instance = Some b ->
  destroy instance w = Some (tt, mkWorld (delete instance (heap w)) (oom w)).
Proof.
  intros N E. unfold destroy, free.
  destruct (Z.eqb_spec instance NULL) as [|_]; [contradiction|]. simpl.
  now apply release_live with (b := b).
Qed.

(** What the scenario does on the code: the payload is accepted but not
    applied, and the port still carries the amplitude set by [create]. *)
Lemma scenario_granted (w : world) :
  exhausted w = false ->
  scenario w = Some ((0, 0, 1.0%float), mkWorld (heap w) (tail (oom w))).
Proof.
  intros E. unfold scenario.
  rewrite (bind_some _ _ _ _ _ (create_granted 42 w E)).
  unfold set_config_json, process. rewrite !bind_ret.
  set (p := fresh_ptr (heap w)).
  set (w1 := mkWorld _ _).
  assert (L : heap w1 !! p = Some (BInstance (fresh_instance 42)))
    by (subst w1; simpl; apply lookup_insert_eq).
  rewrite (bind_some _ _ _ _ _ (get_output_signal _ _ _ L)).
  rewrite (bind_some _ _ _ _ _ (destroy_live _ _ _ (fresh_ptr_not_null _) L)).
  unfold ret. subst w1. simpl. do 3 f_equal.
  apply delete_insert_fresh, fresh_ptr_fresh.
Qed.

(** C1, as stated, fails: after [create(42)], [set_config_json] with the
    payload [{"amplitude":2.0}] and [process(instance, 0, 0.02)], the port
    "signal" does not read 2.0 (it reads 1.0). *)
Lemma scenario_signal_is_not_updated :
  fst <$> scenario empty_world <> Some (0, 0, 2.0%float).
Proof.
  rewrite (scenario_granted empty_world eq_refl). simpl.
  intros E.
  apply (f_equal (fun r => match r with Some (_, _, x) => x | None => 0%float end)) in E.
  revert E. now apply double_neq.
Qed.

(** C1, amended: whenever the allocator grants the instance, the scenario
    runs without fault, [set_config_json] returns the accepted status 0,
    [process] returns 0, [get_output(instance, "signal")] returns the
    amplitude set by [create], 1.0, and after [destroy] the heap is as
    before. *)
Theorem scenario_reads_default_amplitude (w : world) :
  exhausted w = false ->
  exists w', scenario w = Some ((0, 0, 1.0%float), w') /\ heap w' = heap w.
Proof.
  intros E. eexists. split; [now apply scenario_granted|]. reflexivity.
Qed.

Lemma scenario_reads_default_amplitude_witness :
  exists w', scenario empty_world = Some ((0, 0, 1.0%float), w')
             /\ heap w' = heap empty_world.
Proof. apply (scenario_reads_default_amplitude empty_world). reflexivity. Defined.

(** C4: for every instance handle, live or not, and every port name other
    than "signal", [get_output] returns 0.0 without fault and without
    touching the world; so it does for the port "nonexistent". *)
Theorem get_output_unknown_port (instance : Z) (port : string) (w : world) :
  c_string port -> port <> "signal" ->
  get_output instance port w = Some (0.0%float, w)
  /\ get_output instance "nonexistent" w = Some (0.0%float, w).
Proof.
  intros Hp Hne. split.
  - unfold get_output.
    destruct (Z.eqb_spec (strcmp port "signal") 0) as [E|_]; [|reflexivity].
    exfalso. apply Hne. apply strcmp_eq; [assumption| |assumption].
    simpl. unfold code. simpl. repeat split; lia.
  - reflexivity.
Qed.

Lemma get_output_unknown_port_witness :
  get_output 7 "frequency" empty_world = Some (0.0%float, empty_world)
  /\ get_output 7 "nonexistent" empty_world = Some (0.0%float, empty_world).
Proof.
  apply (get_output_unknown_port 7 "frequency" empty_world).
  - simpl. unfold code. simpl. repeat split; lia.
  - discriminate.
Defined.

(** C5: for every 64-bit id, [create] never faults; it returns [NULL]
    exactly when the allocator reports exhaustion, and then the heap is
    untouched; otherwise it returns a handle that was not live before, to
    an instance whose id is the given one, whose amplitude is 1.0, whose
    frequency is 440.0 and whose output path reads as the empty string,
    and no other block has changed. *)
Theorem create_initialises (n : Z) (w : world) :
  0 <= n <= UINT64_MAX ->
  exists p w',
    create n w = Some (p, w')
    /\ (p = NULL <-> exhausted w = true)
    /\ (p = NULL -> heap w' = heap w)
    /\ (p <> NULL ->
        heap w !! p = None
        /\ (exists plugin,
              heap w' !! p = Some (BInstance plugin)
              /\ id plugin = n
              /\ amplitude plugin = 1.0%float
              /\ frequency plugin = 440.0%float
              /\ read_c_string (output_path plugin) = Some EmptyString
              /\ length (output_path plugin) = 256%nat)
        /\ forall q, q <> p -> heap w' !! q = heap w !! q).
Proof.
  intros _. destruct (exhausted w) eqn:E.
  - exists NULL, (mkWorld (heap w) (tail (oom w))).
    split; [now apply create_exhausted|]. simpl. repeat split; try tauto.
  - exists (fresh_ptr (heap w)). eexists.
    split; [now apply create_granted|]. simpl.
    split; [split; [intros N; now apply fresh_ptr_not_null in N | discriminate]|].
    split; [intros N; now apply fresh_ptr_not_null in N|].
    intros _. split; [apply fresh_ptr_fresh|]. split.
    + exists (fresh_instance n). rewrite lookup_insert_eq. repeat split.
    + intros q Hq. now apply lookup_insert_ne.
Qed.

Lemma create_initialises_witness :
  exists p w',
    create 42 empty_world = Some (p, w')
    /\ (p = NULL <-> exhausted empty_world = true)
    /\ (p = NULL -> heap w' = heap empty_world)
    /\ (p <> NULL ->
        heap empty_world !! p = None
        /\ (exists plugin,
              heap w' !! p = Some (BInstance plugin)
              /\ id plugin = 42
              /\ amplitude plugin = 1.0%float
              /\ frequency plugin = 440.0%float
              /\ read_c_string (output_path plugin) = Some EmptyString
              /\ length (output_path plugin) = 256%nat)
        /\ forall q, q <> p -> heap w' !! q = heap empty_world !! q).
Proof. apply (create_initialises 42 empty_world). unfold UINT64_MAX. lia. Defined.

(** C9: for every instance handle and every payload, [set_config_json]
    returns the status 0 and leaves the whole world as it is; in particular
    a live instance reads back with the same id, amplitude, frequency and
    output path. *)
Theorem set_config_json_accepts_and_ignores
    (instance : Z) (json : string) (w : world) :
  set_config_json instance json w = Some (0, w)
  /\ forall p, heap w !! instance = Some (BInstance p) ->
       (set_config_json instance json ;; load_plugin instance) w = Some (p, w).
Proof.
  split; [reflexivity|]. intros p E.
  unfold set_config_json. rewrite bind_ret. now apply load_plugin_live.
Qed.

Lemma set_config_json_accepts_and_ignores_witness :
  let w := mkWorld {[ 1 := BInstance (fresh_instance 42) ]} [] in
  set_config_json 1 amplitude_payload w = Some (0, w)
  /\ (set_config_json 1 amplitude_payload ;; load_plugin 1) w
     = Some (fresh_instance 42, w).
Proof.
  intros w.
  destruct (set_config_json_accepts_and_ignores 1 amplitude_payload w) as [H1 H2].
  split; [exact H1|]. apply H2. reflexivity.
Defined.

(** C10: [destroy(NULL)] returns without fault and leaves the world as it
    is; on a handle that is not [NULL], and only there, [destroy] releases
    the block behind the handle. *)
Theorem destroy_null_is_noop (w : world) :
  destroy NULL w = Some (tt, w)
  /\ forall instance, instance <> NULL -> destroy instance w = release instance w.
Proof.
  split; [reflexivity|]. intros instance N. unfold destroy, free.
  destruct (Z.eqb_spec instance NULL) as [|_]; [contradiction|]. reflexivity.
Qed.

Lemma destroy_null_is_noop_witness :
  let w := mkWorld {[ 1 := BInstance (fresh_instance 42) ]} [] in
  destroy NULL w = Some (tt, w) /\ destroy 1 w = release 1 w.
Proof.
  intros w. destruct (destroy_null_is_noop w) as [H1 H2].
  split; [exact H1|]. apply H2. discriminate.
Defined.

(** ** Metadata queries *)

(** The calls between two queries leave the world as it is. *)
Lemma perform_all_idle (instance : Z) (calls : list call) (w : world) :
  perform_all instance calls w = Some (tt, w).
Proof.
  induction calls as [|c calls IH]; [reflexivity|]. simpl.
  assert (P : perform instance c w = Some (tt, w)) by now destruct c.
  now rewrite (bind_some _ _ _ _ _ P).
Qed.

(** The reader on texts that are not JSON, and on the three shapes of
    number. *)
Example parse_rejects_empty : JsonText.parse EmptyString = None.
Proof. reflexivity. Qed.

Example parse_rejects_open_array : JsonText.parse "[1," = None.
Proof. reflexivity. Qed.

Example parse_rejects_trailing : JsonText.parse "[] []" = None.
Proof. reflexivity. Qed.

Example parse_rejects_bare_word : JsonText.parse "signal" = None.
Proof. reflexivity. Qed.

Example parse_numbers :
  JsonText.parse "[ 20, -3, 0.5, 20000.0, true, null ]"
  = Some (JArr [JInt 20; JInt (-3); JDouble 0.5; JDouble 20000.0;
                JBool true; JNull]).
Proof. vm_compute. reflexivity. Qed.

Lemma strdup_answers (q : Z -> M Z) (text : string) (doc : json)
    (instance : Z) (calls : list call) (w : world) :
  q instance = strdup text ->
  JsonText.parse text = Some doc ->
  answers_with q doc instance calls w.
Proof.
  intros Q P. unfold answers_with.
  rewrite (bind_some _ _ _ _ _ (perform_all_idle instance calls w)), Q.
  destruct (exhausted w) eqn:E.
  - exists NULL. eexists. split; [now apply strdup_exhausted|]. simpl.
    repeat split; try tauto.
  - exists (fresh_ptr (heap w)). eexists. split; [now apply strdup_granted|]. simpl.
    split; [split; [intros N; now apply fresh_ptr_not_null in N | discriminate]|].
    split.
    + intros _. split; [apply fresh_ptr_fresh|].
      exists text. split; [apply lookup_insert_eq | exact P].
    + intros a b L. rewrite lookup_insert_ne; [assumption|].
      now apply fresh_ptr_ne with (b := b).
Qed.

(** C7: [meta_json], [inputs_json] and [outputs_json] are pure and stable.
    For every instance handle, after any sequence of [set_config_json],
    [set_input] and [process] calls, from any world, each query never
    faults, returns [NULL] exactly when the allocator reports exhaustion,
    and otherwise returns a new block whose text reads as the same document
    at every call: for [meta_json] the object with [name] "Example C
    Plugin", an empty [fixed_vars] and [default_vars] amplitude 1.0 and
    frequency 440.0; for [inputs_json] the empty array; for [outputs_json]
    the array with the single entry [{"id":"signal"}].  No query changes a
    block that was live before it, the instance among them. *)
Theorem metadata_queries_stable
    (instance : Z) (calls : list call) (w : world) :
  answers_with meta_json
    (JObj [("name", JStr "Example C Plugin");
           ("fixed_vars", JArr []);
           ("default_vars", JArr [JObj [("amplitude", JDouble 1.0)];
                                  JObj [("frequency", JDouble 440.0)]])])
    instance calls w
  /\ answers_with inputs_json (JArr []) instance calls w
  /\ answers_with outputs_json (JArr [JObj [("id", JStr "signal")]])
       instance calls w.
Proof.
  split; [|split].
  - apply strdup_answers with (text := meta_text); [reflexivity|].
    vm_compute. reflexivity.
  - apply strdup_answers with (text := inputs_text); [reflexivity|].
    vm_compute. reflexivity.
  - apply strdup_answers with (text := outputs_text); [reflexivity|].
    vm_compute. reflexivity.
Qed.

Lemma metadata_queries_stable_witness :
  let w := mkWorld {[ 1 := BInstance (fresh_instance 42) ]} [] in
  let calls := [SetConfigJson amplitude_payload; SetInput "gain" 0.5; Process 0 0.02] in
  exists p w' text,
    (perform_all 1 calls ;; meta_json 1) w = Some (p, w')
    /\ p <> NULL
    /\ heap w' !! p = Some (BString text)
    /\ JsonText.parse text
       = Some (JObj [("name", JStr "Example C Plugin");
                     ("fixed_vars", JArr []);
                     ("default_vars", JArr [JObj [("amplitude", JDouble 1.0)];
                                            JObj [("frequency", JDouble 440.0)]])])
    /\ heap w' !! 1 = Some (BInstance (fresh_instance 42)).
Proof.
  intros w calls.
  destruct (metadata_queries_stable 1 calls w)
    as [(p & w' & Run & Null & Doc & Frame) _].
  assert (Np : p <> NULL) by (intros E; apply Null in E; discriminate).
  destruct (Doc Np) as (_ & text & L & P).
  exists p, w', text. repeat split; try assumption.
  apply Frame. reflexivity.
Defined.

(** ** The library: allocation steps *)

Section UiFacts.

Implicit Types (w : world) (schema field : Z) (x : RTSynConfigField).

(** A request to the allocator followed by the rest of the call. *)
Lemma alloc_bind {B} (b : block) (k : Z -> M B) w :
  (p <- alloc b ;; k p) w =
    if exhausted w
    then k NULL (mkWorld (heap w) (tail (oom w)))
    else k (fresh_ptr (heap w))
           (mkWorld (<[fresh_ptr (heap w) := b]> (heap w)) (tail (oom w))).
Proof.
  destruct (exhausted w) eqn:E.
  - now rewrite (bind_some _ _ _ _ _ (alloc_exhausted _ _ E)).
  - now rewrite (bind_some _ _ _ _ _ (alloc_granted _ _ E)).
Qed.

Lemma add_field_live schema field fields x w :
  heap w !! schema = Some (BSchema fields) ->
  heap w !! field = Some (BField x) ->
  rtsyn_ui_schema_add_field schema field w =
    Some (tt, mkWorld (<[schema := BSchema (fields ++ [x])]> (delete field (heap w)))
                      (oom w)).
Proof.
  intros Hs Hf. unfold rtsyn_ui_schema_add_field.
  rewrite (bind_some _ _ _ _ _ (load_live _ _ _ Hs)).
  rewrite (bind_some _ _ _ _ _ (load_live _ _ _ Hf)).
  assert (N : field <> schema) by (intros ->; congruence).
  rewrite (bind_some _ _ _ _ _ (release_live _ _ _ Hf)).
  erewrite store_live; [reflexivity|]. simpl.
  rewrite lookup_delete_ne by assumption. exact Hs.
Qed.

Lemma add_field_dead_schema schema field w :
  heap w !! schema = None -> rtsyn_ui_schema_add_field schema field w = None.
Proof.
  intros Hs. unfold rtsyn_ui_schema_add_field.
  now rewrite (bind_none _ _ _ (load_dead _ _ Hs)).
Qed.

Lemma add_field_dead_field schema field w :
  heap w !! field = None -> rtsyn_ui_schema_add_field schema field w = None.
Proof.
  intros Hf. unfold rtsyn_ui_schema_add_field.
  destruct (heap w !! schema) as [b|] eqn:Hs.
  - rewrite (bind_some _ _ _ _ _ (load_live _ _ _ Hs)).
    now rewrite (bind_none _ _ _ (load_dead _ _ Hf)).
  - now rewrite (bind_none _ _ _ (load_dead _ _ Hs)).
Qed.

(** Creating a field and adding it at once: on exhaustion the schema is
    handed a null field; otherwise the schema grows by the field and
    nothing else changes. *)
Lemma create_and_add {B} schema fields x (k : M B) w :
  heap w !! NULL = None ->
  heap w !! schema = Some (BSchema fields) ->
  (f <- alloc (BField x) ;; rtsyn_ui_schema_add_field schema f ;; k) w =
    if exhausted w then None
    else k (mkWorld (<[schema := BSchema (fields ++ [x])]> (heap w)) (tail (oom w))).
Proof.
  intros H0 Hs. rewrite alloc_bind. destruct (exhausted w).
  - apply bind_none. now apply add_field_dead_field.
  - set (f := fresh_ptr (heap w)).
    assert (Nf : f <> schema) by (apply fresh_ptr_ne with (b := BSchema fields); assumption).
    erewrite bind_some.
    2:{ apply add_field_live with (fields := fields) (x := x); simpl.
        - now rewrite lookup_insert_ne.
        - apply lookup_insert_eq. }
    simpl. now rewrite delete_insert_fresh by apply fresh_ptr_fresh.
Qed.

Lemma to_json_bind {B} schema fields (k : Z -> M B) w :
  heap w !! schema = Some (BSchema fields) ->
  (p <- rtsyn_ui_schema_to_json schema ;; k p) w =
  (p <- alloc (BJson (schema_document fields)) ;; k p) w.
Proof.
  intros Hs. unfold rtsyn_ui_schema_to_json, bind at 1 2.
  now rewrite (load_live _ _ _ Hs).
Qed.

Lemma to_json_live schema fields w :
  heap w !! schema = Some (BSchema fields) ->
  rtsyn_ui_schema_to_json schema w = alloc (BJson (schema_document fields)) w.
Proof.
  intros Hs. unfold rtsyn_ui_schema_to_json.
  now rewrite (bind_some _ _ _ _ _ (load_live _ _ _ Hs)).
Qed.

Lemma schema_free_live schema fields w :
  heap w !! schema = Some (BSchema fields) ->
  rtsyn_ui_schema_free schema w =
    Some (tt, mkWorld (delete schema (heap w)) (oom w)).
Proof.
  intros Hs. unfold rtsyn_ui_schema_free.
  rewrite (bind_some _ _ _ _ _ (load_live _ _ _ Hs)).
  now apply release_live with (b := BSchema fields).
Qed.

Lemma string_free_live s b w :
  heap w !! s = Some b -> is_document b = true ->
  rtsyn_string_free s w = Some (tt, mkWorld (delete s (heap w)) (oom w)).
Proof.
  intros Hs Hb. unfold rtsyn_string_free.
  rewrite (bind_some _ _ _ _ _ (load_live _ _ _ Hs)).
  destruct b; try discriminate; eapply release_live; eassumption.
Qed.

Lemma string_free_dead s w :
  heap w !! s = None -> rtsyn_string_free s w = None.
Proof.
  intros Hs. unfold rtsyn_string_free.
  now rewrite (bind_none _ _ _ (load_dead _ _ Hs)).
Qed.

End UiFacts.

(** ** The behavior document *)

Lemma behavior_to_json_run (ss sr : Z) (e : extendable) (pat : option string)
    (ls cd : Z) (w : world) :
  rtsyn_behavior_to_json ss sr (extendable_code e) pat ls cd w =
    alloc (BJson (behavior_document ss sr e pat ls cd)) w.
Proof. now destruct e. Qed.

(** C3: for every combination of flags, the behavior document has a
    pattern member exactly when the policy is [auto]; a granted call of
    [rtsyn_behavior_to_json] returns that document.  The example plugin's
    [behavior_json] returns the document with [extendable_inputs] "none",
    no pattern member, [supports_start_stop], [supports_restart] and
    [loads_started] true and [connection_dependent] false. *)
Theorem behavior_pattern_only_for_auto (ss sr : Z) (e : extendable)
    (pat : option string) (ls cd : Z) (instance : Z) (w : world) :
  exhausted w = false ->
  (Json.has_key "extendable_inputs_pattern" (behavior_document ss sr e pat ls cd) = true
     <-> e = ExtAuto)
  /\ (exists p w',
        rtsyn_behavior_to_json ss sr (extendable_code e) pat ls cd w = Some (p, w')
        /\ p <> NULL
        /\ heap w' !! p = Some (BJson (behavior_document ss sr e pat ls cd)))
  /\ (exists p w',
        behavior_json instance w = Some (p, w')
        /\ p <> NULL
        /\ heap w' !! p = Some (BJson example_behavior))
  /\ Json.member "extendable_inputs" example_behavior = Some (JStr "none")
  /\ Json.has_key "extendable_inputs_pattern" example_behavior = false
  /\ Json.member "supports_start_stop" example_behavior = Some (JBool true)
  /\ Json.member "supports_restart" example_behavior = Some (JBool true)
  /\ Json.member "loads_started" example_behavior = Some (JBool true)
  /\ Json.member "connection_dependent" example_behavior = Some (JBool false).
Proof.
  intros E. split; [|split; [|split]].
  - destruct e; vm_compute; split; congruence.
  - rewrite behavior_to_json_run, (alloc_granted _ _ E).
    eexists _, _. split; [reflexivity|]. split; [apply fresh_ptr_not_null|].
    simpl. apply lookup_insert_eq.
  - unfold behavior_json.
    change RTSYN_EXTENDABLE_NONE with (extendable_code ExtNone).
    rewrite behavior_to_json_run, (alloc_granted _ _ E).
    eexists _, _. split; [reflexivity|]. split; [apply fresh_ptr_not_null|].
    simpl. apply lookup_insert_eq.
  - repeat split.
Qed.

Lemma behavior_pattern_only_for_auto_witness :
  (Json.has_key "extendable_inputs_pattern"
     (behavior_document 1 0 ExtAuto (Some "in_{}") 0 1) = true
     <-> ExtAuto = ExtAuto)
  /\ (exists p w',
        rtsyn_behavior_to_json 1 0 (extendable_code ExtAuto) (Some "in_{}") 0 1
          empty_world = Some (p, w')
        /\ p <> NULL
        /\ heap w' !! p
           = Some (BJson (behavior_document 1 0 ExtAuto (Some "in_{}") 0 1)))
  /\ (exists p w',
        behavior_json 1 empty_world = Some (p, w')
        /\ p <> NULL
        /\ heap w' !! p = Some (BJson example_behavior))
  /\ Json.member "extendable_inputs" example_behavior = Some (JStr "none")
  /\ Json.has_key "extendable_inputs_pattern" example_behavior = false
  /\ Json.member "supports_start_stop" example_behavior = Some (JBool true)
  /\ Json.member "supports_restart" example_behavior = Some (JBool true)
  /\ Json.member "loads_started" example_behavior = Some (JBool true)
  /\ Json.member "connection_dependent" example_behavior = Some (JBool false).
Proof.
  apply (behavior_pattern_only_for_auto 1 0 ExtAuto (Some "in_{}") 0 1 1 empty_world).
  reflexivity.
Defined.

(** ** The schema of the example plugin *)

(** The run of [ui_schema_json], by the answers of the allocator to its
    five requests (the schema, the three fields, the document): a failed
    request for the schema or for a field ends in a call the library gives
    no meaning to; a failed request for the document yields [NULL]; and in
    every run that returns, the schema and its fields are gone again. *)
Lemma ui_schema_json_run (instance : Z) (w : world) :
  heap w !! NULL = None ->
  ui_schema_json instance w =
    let a := oom w in
    if hd false a then None else
    if hd false (tail a) then None else
    if hd false (tail (tail a)) then None else
    if hd false (tail (tail (tail a))) then None else
    if hd false (tail (tail (tail (tail a))))
    then Some (NULL, mkWorld (heap w) (tail (tail (tail (tail (tail a))))))
    else
      let p := fresh_ptr (<[fresh_ptr (heap w) := BSchema example_fields]> (heap w)) in
      Some (p, mkWorld (<[p := BJson (schema_document example_fields)]> (heap w))
                       (tail (tail (tail (tail (tail a)))))).
Proof.
  intros H0. cbv zeta. unfold ui_schema_json, rtsyn_ui_schema_new.
  unfold rtsyn_ui_field_float, rtsyn_ui_field_filepath.
  rewrite alloc_bind. fold (exhausted w). destruct (exhausted w).
  { rewrite alloc_bind.
    destruct (exhausted _); apply bind_none, add_field_dead_schema; simpl;
      [assumption|].
    rewrite lookup_insert_ne by apply fresh_ptr_not_null. assumption. }
  set (s := fresh_ptr (heap w)).
  assert (Ns : s <> NULL) by apply fresh_ptr_not_null.
  assert (Fs : heap w !! s = None) by apply fresh_ptr_fresh.
  erewrite (create_and_add s);
    [| simpl; now rewrite lookup_insert_ne | simpl; apply lookup_insert_eq].
  unfold exhausted at 1. cbn [oom heap]. destruct (hd false (tail (oom w))); [reflexivity|].
  rewrite insert_insert_eq.
  erewrite (create_and_add s);
    [| simpl; now rewrite lookup_insert_ne | simpl; apply lookup_insert_eq].
  unfold exhausted at 1. cbn [oom heap].
  destruct (hd false (tail (tail (oom w)))); [reflexivity|].
  rewrite insert_insert_eq.
  erewrite (create_and_add s);
    [| simpl; now rewrite lookup_insert_ne | simpl; apply lookup_insert_eq].
  unfold exhausted at 1. cbn [oom heap].
  destruct (hd false (tail (tail (tail (oom w))))); [reflexivity|].
  rewrite insert_insert_eq.
  change ((([] ++ [?f1]) ++ [?f2]) ++ [?f3]) with example_fields.
  set (h1 := <[s := BSchema example_fields]> (heap w)).
  assert (L1 : h1 !! s = Some (BSchema example_fields)) by apply lookup_insert_eq.
  rewrite (to_json_bind s example_fields) by exact L1.
  rewrite alloc_bind. unfold exhausted at 1. cbn [oom heap].
  destruct (hd false (tail (tail (tail (tail (oom w)))))).
  - erewrite bind_some by (apply schema_free_live with (fields := example_fields); exact L1).
    unfold ret. cbn [oom heap]. do 3 f_equal.
    subst h1. now apply delete_insert_fresh.
  - set (p := fresh_ptr h1).
    assert (Np : p <> s) by (apply fresh_ptr_ne with (b := BSchema example_fields); exact L1).
    erewrite bind_some.
    2:{ apply schema_free_live with (fields := example_fields). cbn [heap].
        now rewrite lookup_insert_ne. }
    unfold ret. cbn [oom heap]. do 3 f_equal.
    rewrite delete_insert_ne by (intros Eq; apply Np; symmetry; exact Eq).
    subst h1. now rewrite delete_insert_fresh.
Qed.

(** ** Order of the fields of a schema *)

Lemma field_document_key (f : RTSynConfigField) :
  Json.member "key" (field_document f) = Some (JStr (field_key f)).
Proof. now destruct f. Qed.

Lemma listed_keys_schema_document (fields : list RTSynConfigField) :
  listed_keys (schema_document fields) = map (fun f => Some (field_key f)) fields.
Proof.
  unfold listed_keys, schema_document. cbn [Json.member Json.assoc].
  change (String.eqb "fields" "fields") with true. cbn [Json.items].
  induction fields as [|f fields IH]; [reflexivity|].
  cbn [map]. rewrite field_document_key. now f_equal.
Qed.

(** Adding a sequence of live, pairwise distinct fields appends their
    contents to the schema in the order of the calls and consumes the
    handles; nothing else changes. *)
Lemma add_fields_run (schema : Z) (added : list (Z * RTSynConfigField)) :
  forall (fields : list RTSynConfigField) (w : world),
    heap w !! schema = Some (BSchema fields) ->
    NoDup added.*1 ->
    Forall (fun pg => heap w !! pg.1 = Some (BField pg.2)) added ->
    exists w',
      add_fields schema added.*1 w = Some (tt, w')
      /\ heap w' !! schema = Some (BSchema (fields ++ added.*2))
      /\ oom w' = oom w
      /\ (forall a, a ∈ added.*1 -> heap w' !! a = None)
      /\ (forall a, a <> schema -> a ∉ added.*1 -> heap w' !! a = heap w !! a).
Proof.
  induction added as [|[p g] added IH]; intros fields w Hs Hnd Hall.
  - exists w. simpl. rewrite app_nil_r. repeat split; try assumption.
    intros a Ha. now apply elem_of_nil in Ha.
  - apply NoDup_cons in Hnd as [Hp Hnd].
    apply Forall_cons in Hall as [Hpg Hall]. simpl in Hpg.
    assert (Nps : p <> schema) by (intros ->; congruence).
    pose proof (add_field_live schema p fields g w Hs Hpg) as Step.
    set (w1 := mkWorld _ _) in Step.
    destruct (IH (fields ++ [g]) w1) as (w' & Run & Ls & Lo & Dead & Frame).
    + subst w1. simpl. apply lookup_insert_eq.
    + exact Hnd.
    + apply Forall_forall. intros [q x] Hq.
      rewrite Forall_forall in Hall. specialize (Hall _ Hq). simpl in *.
      assert (q <> p).
      { intros ->. apply Hp. apply list_elem_of_fmap. now exists (p, x). }
      assert (q <> schema) by (intros ->; congruence).
      subst w1. simpl. rewrite lookup_insert_ne by congruence.
      now rewrite lookup_delete_ne by congruence.
    + exists w'. cbn [fmap list_fmap fst snd add_fields].
      change (list_fmap _ _ fst added) with (added.*1) in *.
      change (list_fmap _ _ snd added) with (added.*2) in *.
      rewrite (bind_some _ _ _ _ _ Step). split; [exact Run|].
      split; [now rewrite <- app_assoc in Ls|].
      split; [exact Lo|]. split.
      * intros a Ha. apply elem_of_cons in Ha as [->|Ha]; [|now apply Dead].
        rewrite Frame by assumption. subst w1. simpl.
        rewrite lookup_insert_ne by congruence. apply lookup_delete_eq.
      * intros a Has Ha. apply not_elem_of_cons in Ha as [Hap Ha].
        rewrite Frame by assumption. subst w1. simpl.
        rewrite lookup_insert_ne by congruence.
        now rewrite lookup_delete_ne by congruence.
Qed.

Lemma plentiful_tails_5 (w : world) :
  plentiful 5 w ->
  hd false (oom w) = false
  /\ hd false (tail (oom w)) = false
  /\ hd false (tail (tail (oom w))) = false
  /\ hd false (tail (tail (tail (oom w)))) = false
  /\ hd false (tail (tail (tail (tail (oom w))))) = false.
Proof.
  intros P5.
  destruct (plentiful_S _ _ P5) as [E1 P4]. specialize (P4 ∅).
  destruct (plentiful_S _ _ P4) as [E2 P3]. specialize (P3 ∅).
  destruct (plentiful_S _ _ P3) as [E3 P2]. specialize (P2 ∅).
  destruct (plentiful_S _ _ P2) as [E4 P1]. specialize (P1 ∅).
  destruct (plentiful_S _ _ P1) as [E5 _].
  unfold exhausted in *. simpl in *. auto.
Qed.

(** With five granted requests [ui_schema_json] returns the document of
    the three declared fields and leaves nothing else behind. *)
Lemma ui_schema_json_granted (instance : Z) (w : world) :
  heap w !! NULL = None -> plentiful 5 w ->
  exists p ans,
    ui_schema_json instance w
      = Some (p, mkWorld (<[p := BJson (schema_document example_fields)]> (heap w)) ans)
    /\ p <> NULL /\ heap w !! p = None.
Proof.
  intros H0 P5. rewrite (ui_schema_json_run instance w H0). cbv zeta.
  destruct (plentiful_tails_5 w P5) as (-> & -> & -> & -> & ->).
  eexists _, _. split; [reflexivity|].
  split; [apply fresh_ptr_not_null|].
  set (s := fresh_ptr (heap w)).
  destruct (heap w !! fresh_ptr (<[s := BSchema example_fields]> (heap w))) as [b|] eqn:L;
    [|reflexivity].
  exfalso.
  assert (N : fresh_ptr (<[s := BSchema example_fields]> (heap w)) <> s).
  { apply fresh_ptr_ne with (b := BSchema example_fields). apply lookup_insert_eq. }
  pose proof (fresh_ptr_fresh (<[s := BSchema example_fields]> (heap w))) as F.
  rewrite lookup_insert_ne in F by congruence. congruence.
Qed.

(** Whenever [ui_schema_json] returns a document, it is that one, in a
    block that was not live, and the heap is otherwise as before. *)
Lemma ui_schema_json_returns (instance : Z) (w w' : world) (p : Z) :
  heap w !! NULL = None ->
  ui_schema_json instance w = Some (p, w') -> p <> NULL ->
  heap w !! p = None
  /\ heap w' = <[p := BJson (schema_document example_fields)]> (heap w).
Proof.
  intros H0 Run Np. rewrite (ui_schema_json_run instance w H0) in Run. cbv zeta in Run.
  repeat match type of Run with
         | (if ?c then _ else _) = _ => destruct c; try discriminate
         end.
  - injection Run as <- _. contradiction.
  - injection Run as <- <-. cbn [heap]. split; [|reflexivity].
    set (s := fresh_ptr (heap w)).
    pose proof (fresh_ptr_fresh (<[s := BSchema example_fields]> (heap w))) as F.
    assert (N : fresh_ptr (<[s := BSchema example_fields]> (heap w)) <> s).
    { apply fresh_ptr_ne with (b := BSchema example_fields). apply lookup_insert_eq. }
    now rewrite lookup_insert_ne in F by congruence.
Qed.

(** C2: a schema that holds [fields] and receives a sequence of
    [rtsyn_ui_schema_add_field] calls, on live and pairwise distinct
    fields, serializes to the document whose [fields] array lists the
    entries of the fields held before followed by the added ones in the
    order of the calls; the keys are listed in that order.  The document
    returned by the example plugin's [ui_schema_json] lists the keys
    amplitude, frequency, output_path, in this order. *)
Theorem schema_document_keeps_order
    (schema : Z) (fields : list RTSynConfigField)
    (added : list (Z * RTSynConfigField)) (w : world)
    (instance : Z) (v : world) :
  heap w !! schema = Some (BSchema fields) ->
  NoDup added.*1 ->
  Forall (fun pg => heap w !! pg.1 = Some (BField pg.2)) added ->
  exhausted w = false ->
  heap v !! NULL = None ->
  plentiful 5 v ->
  (exists p w',
     (add_fields schema added.*1 ;; rtsyn_ui_schema_to_json schema) w = Some (p, w')
     /\ p <> NULL
     /\ heap w' !! p = Some (BJson (schema_document (fields ++ added.*2))))
  /\ Json.member "fields" (schema_document (fields ++ added.*2))
     = Some (JArr (map field_document (fields ++ added.*2)))
  /\ listed_keys (schema_document (fields ++ added.*2))
     = map (fun f => Some (field_key f)) (fields ++ added.*2)
  /\ (exists p v' doc,
        ui_schema_json instance v = Some (p, v')
        /\ p <> NULL
        /\ heap v' !! p = Some (BJson doc)
        /\ listed_keys doc = [Some "amplitude"; Some "frequency"; Some "output_path"]).
Proof.
  intros Hs Hnd Hall E H0 P5. split; [|split; [|split]].
  - destruct (add_fields_run schema added fields w Hs Hnd Hall)
      as (w1 & Run & Ls & Lo & _ & _).
    rewrite (bind_some _ _ _ _ _ Run).
    rewrite (to_json_live _ _ _ Ls).
    assert (E1 : exhausted w1 = false) by (unfold exhausted in *; now rewrite Lo).
    rewrite (alloc_granted _ _ E1).
    eexists _, _. split; [reflexivity|]. split; [apply fresh_ptr_not_null|].
    simpl. apply lookup_insert_eq.
  - reflexivity.
  - apply listed_keys_schema_document.
  - destruct (ui_schema_json_granted instance v H0 P5) as (p & ans & Run & Np & _).
    exists p. eexists _, _. split; [exact Run|]. split; [exact Np|].
    split; [simpl; apply lookup_insert_eq|]. reflexivity.
Qed.

Lemma schema_document_keeps_order_witness :
  let added := [(2, text_field); (3, freq_field)] in
  (exists p w',
     (add_fields 1 added.*1 ;; rtsyn_ui_schema_to_json 1) builder_world = Some (p, w')
     /\ p <> NULL
     /\ heap w' !! p = Some (BJson (schema_document ([] ++ added.*2))))
  /\ Json.member "fields" (schema_document ([] ++ added.*2))
     = Some (JArr (map field_document ([] ++ added.*2)))
  /\ listed_keys (schema_document ([] ++ added.*2))
     = map (fun f => Some (field_key f)) ([] ++ added.*2)
  /\ (exists p v' doc,
        ui_schema_json 1 empty_world = Some (p, v')
        /\ p <> NULL
        /\ heap v' !! p = Some (BJson doc)
        /\ listed_keys doc = [Some "amplitude"; Some "frequency"; Some "output_path"]).
Proof.
  intros added.
  apply (schema_document_keeps_order 1 [] added builder_world 1 empty_world).
  - reflexivity.
  - simpl. apply NoDup_cons. split; [|apply NoDup_singleton].
    intros H. apply list_elem_of_singleton in H. discriminate.
  - repeat constructor.
  - reflexivity.
  - reflexivity.
  - apply plentiful_empty.
Defined.

(** ** Serializing a schema leaves it in place *)

(** C6: [rtsyn_ui_schema_to_json] on a live schema never faults and
    changes no live block: the schema is still live with the same fields.
    A second call returns a second block holding an equal document while
    the first is still there, and a live field can still be added to the
    schema afterwards. *)
Theorem to_json_leaves_schema
    (schema field : Z) (fields : list RTSynConfigField) (x : RTSynConfigField)
    (w : world) :
  heap w !! schema = Some (BSchema fields) ->
  heap w !! field = Some (BField x) ->
  exists p w',
    rtsyn_ui_schema_to_json schema w = Some (p, w')
    /\ (p = NULL <-> exhausted w = true)
    /\ (p <> NULL ->
        heap w !! p = None
        /\ heap w' !! p = Some (BJson (schema_document fields)))
    /\ (forall a b, heap w !! a = Some b -> heap w' !! a = Some b)
    /\ (exists p2 w2,
          rtsyn_ui_schema_to_json schema w' = Some (p2, w2)
          /\ (p <> NULL -> p2 <> NULL ->
              p2 <> p
              /\ heap w2 !! p = Some (BJson (schema_document fields))
              /\ heap w2 !! p2 = Some (BJson (schema_document fields))))
    /\ (exists w3,
          rtsyn_ui_schema_add_field schema field w' = Some (tt, w3)
          /\ heap w3 !! schema = Some (BSchema (fields ++ [x]))).
Proof.
  intros Hs Hf.
  assert (Step : forall u, heap u !! schema = Some (BSchema fields) ->
            exists p u',
              rtsyn_ui_schema_to_json schema u = Some (p, u')
              /\ (p = NULL <-> exhausted u = true)
              /\ (p <> NULL ->
                  heap u !! p = None
                  /\ heap u' !! p = Some (BJson (schema_document fields)))
              /\ (forall a b, heap u !! a = Some b -> heap u' !! a = Some b)).
  { intros u Hu. rewrite (to_json_live _ _ _ Hu). destruct (exhausted u) eqn:E.
    - rewrite (alloc_exhausted _ _ E). eexists _, _. split; [reflexivity|].
      simpl. repeat split; try tauto.
    - rewrite (alloc_granted _ _ E). eexists _, _. split; [reflexivity|]. simpl.
      split; [split; [intros N; now apply fresh_ptr_not_null in N | discriminate]|].
      split.
      + intros _. split; [apply fresh_ptr_fresh | apply lookup_insert_eq].
      + intros a b L. rewrite lookup_insert_ne; [assumption|].
        now apply fresh_ptr_ne with (b := b). }
  destruct (Step w Hs) as (p & w' & Run & Null & Doc & Frame).
  exists p, w'. split; [exact Run|]. split; [exact Null|].
  split; [exact Doc|]. split; [exact Frame|]. split.
  - destruct (Step w' (Frame _ _ Hs)) as (p2 & w2 & Run2 & _ & Doc2 & Frame2).
    exists p2, w2. split; [exact Run2|]. intros Np Np2.
    destruct (Doc Np) as [_ Lp]. destruct (Doc2 Np2) as [Fp2 Lp2].
    split; [intros ->; congruence|]. split; [now apply Frame2 | exact Lp2].
  - eexists. split.
    + apply add_field_live with (fields := fields) (x := x); now apply Frame.
    + simpl. apply lookup_insert_eq.
Qed.

Lemma to_json_leaves_schema_witness :
  exists p w',
    rtsyn_ui_schema_to_json 1 builder_world = Some (p, w')
    /\ (p = NULL <-> exhausted builder_world = true)
    /\ (p <> NULL ->
        heap builder_world !! p = None
        /\ heap w' !! p = Some (BJson (schema_document [])))
    /\ (forall a b, heap builder_world !! a = Some b -> heap w' !! a = Some b)
    /\ (exists p2 w2,
          rtsyn_ui_schema_to_json 1 w' = Some (p2, w2)
          /\ (p <> NULL -> p2 <> NULL ->
              p2 <> p
              /\ heap w2 !! p = Some (BJson (schema_document []))
              /\ heap w2 !! p2 = Some (BJson (schema_document []))))
    /\ (exists w3,
          rtsyn_ui_schema_add_field 1 2 w' = Some (tt, w3)
          /\ heap w3 !! 1 = Some (BSchema ([] ++ [text_field]))).
Proof.
  apply (to_json_leaves_schema 1 2 [] text_field builder_world); reflexivity.
Defined.

(** ** Ownership of the documents handed to the host *)

Lemma strdup_returns (s : string) (w w' : world) (p : Z) :
  strdup s w = Some (p, w') -> p <> NULL ->
  heap w !! p = None /\ heap w' = <[p := BString s]> (heap w).
Proof.
  intros Run Np. destruct (exhausted w) eqn:E.
  - rewrite (strdup_exhausted _ _ E) in Run. injection Run as <- _. contradiction.
  - rewrite (strdup_granted _ _ E) in Run. injection Run as <- <-.
    split; [apply fresh_ptr_fresh | reflexivity].
Qed.

Lemma alloc_returns (b : block) (w w' : world) (p : Z) :
  alloc b w = Some (p, w') -> p <> NULL ->
  heap w !! p = None /\ heap w' = <[p := b]> (heap w).
Proof.
  intros Run Np. destruct (exhausted w) eqn:E.
  - rewrite (alloc_exhausted _ _ E) in Run. injection Run as <- _. contradiction.
  - rewrite (alloc_granted _ _ E) in Run. injection Run as <- <-.
    split; [apply fresh_ptr_fresh | reflexivity].
Qed.

Lemma behavior_json_run (instance : Z) (w : world) :
  behavior_json instance w = alloc (BJson example_behavior) w.
Proof. reflexivity. Qed.

(** A query that returns a document returns it in a block that was not
    live before, and changes nothing else. *)
Lemma query_returns (q : Z -> M Z) (instance : Z) (w w' : world) (p : Z) :
  q ∈ document_queries ->
  heap w !! NULL = None ->
  q instance w = Some (p, w') -> p <> NULL ->
  heap w !! p = None
  /\ exists d, is_document d = true /\ heap w' = <[p := d]> (heap w).
Proof.
  intros Hq H0 Run Np. unfold document_queries in Hq.
  repeat (apply elem_of_cons in Hq as [->|Hq]); [..|now apply elem_of_nil in Hq].
  - destruct (strdup_returns _ _ _ _ Run Np) as [F H]. split; [exact F|].
    now exists (BString meta_text).
  - destruct (strdup_returns _ _ _ _ Run Np) as [F H]. split; [exact F|].
    now exists (BString inputs_text).
  - destruct (strdup_returns _ _ _ _ Run Np) as [F H]. split; [exact F|].
    now exists (BString outputs_text).
  - destruct (ui_schema_json_returns _ _ _ _ H0 Run Np) as [F H]. split; [exact F|].
    now exists (BJson (schema_document example_fields)).
  - rewrite behavior_json_run in Run.
    destruct (alloc_returns _ _ _ _ Run Np) as [F H]. split; [exact F|].
    now exists (BJson example_behavior).
Qed.

(** While the allocator grants its requests, every query returns a
    document. *)
Lemma query_granted (q : Z -> M Z) (instance : Z) (w : world) :
  q ∈ document_queries ->
  heap w !! NULL = None ->
  plentiful 5 w ->
  exists p w', q instance w = Some (p, w') /\ p <> NULL.
Proof.
  intros Hq H0 P5.
  assert (E : exhausted w = false) by apply (plentiful_tails_5 w P5).
  unfold document_queries in Hq.
  repeat (apply elem_of_cons in Hq as [->|Hq]); [..|now apply elem_of_nil in Hq].
  - eexists _, _. split; [now apply strdup_granted | apply fresh_ptr_not_null].
  - eexists _, _. split; [now apply strdup_granted | apply fresh_ptr_not_null].
  - eexists _, _. split; [now apply strdup_granted | apply fresh_ptr_not_null].
  - destruct (ui_schema_json_granted instance w H0 P5) as (p & ans & Run & Np & _).
    exists p. eexists. split; [exact Run | exact Np].
  - rewrite behavior_json_run, (alloc_granted _ _ E).
    eexists _, _. split; [reflexivity | apply fresh_ptr_not_null].
Qed.

(** C8: for each of [meta_json], [inputs_json], [outputs_json],
    [ui_schema_json] and [behavior_json], a run in which the allocator
    grants every request returns a document; and whenever the query returns
    a document, its block was not live before the call and is the only
    change to the heap.  One call of [rtsyn_string_free] on it succeeds and
    leaves the heap exactly as it was before the query; without that call
    the block stays live through every later [set_config_json],
    [set_input] and [process]; after the release a second release and a
    read are both undefined; and so is the release of any address that
    does not hold a string or document. *)
Theorem documents_are_released_once
    (q : Z -> M Z) (instance : Z) (w : world) :
  q ∈ document_queries ->
  heap w !! NULL = None ->
  (plentiful 5 w -> exists p w', q instance w = Some (p, w') /\ p <> NULL)
  /\ forall p w',
       q instance w = Some (p, w') -> p <> NULL ->
       heap w !! p = None
       /\ (exists d, is_document d = true /\ heap w' = <[p := d]> (heap w))
       /\ (exists w1,
             rtsyn_string_free p w' = Some (tt, w1)
             /\ heap w1 = heap w
             /\ rtsyn_string_free p w1 = None
             /\ load p w1 = None)
       /\ (forall calls, exists w2,
             perform_all instance calls w' = Some (tt, w2)
             /\ heap w2 !! p = heap w' !! p
             /\ is_Some (heap w2 !! p))
       /\ (forall a,
             (forall b, heap w' !! a = Some b -> is_document b = false) ->
             rtsyn_string_free a w' = None).
Proof.
  intros Hq H0. split; [now apply query_granted|].
  intros p w' Run Np.
  destruct (query_returns q instance w w' p Hq H0 Run Np) as (F & d & Hd & H).
  assert (L : heap w' !! p = Some d) by (rewrite H; apply lookup_insert_eq).
  split; [exact F|]. split; [now exists d|]. split; [|split].
  - eexists. split; [now apply string_free_live with (b := d)|]. cbn [heap].
    split; [rewrite H; now apply delete_insert_fresh|].
    split.
    + apply string_free_dead. cbn [heap]. apply lookup_delete_eq.
    + apply load_dead. cbn [heap]. apply lookup_delete_eq.
  - intros calls. exists w'. split; [apply perform_all_idle|].
    split; [reflexivity | now rewrite L].
  - intros a Ha. unfold rtsyn_string_free.
    destruct (heap w' !! a) as [b|] eqn:La.
    + rewrite (bind_some _ _ _ _ _ (load_live _ _ _ La)).
      specialize (Ha b eq_refl). now destruct b.
    + now rewrite (bind_none _ _ _ (load_dead _ _ La)).
Qed.

Lemma documents_are_released_once_witness :
  exists p w',
    ui_schema_json 1 empty_world = Some (p, w')
    /\ p <> NULL
    /\ heap empty_world !! p = None
    /\ (exists d, is_document d = true /\ heap w' = <[p := d]> (heap empty_world))
    /\ (exists w1,
          rtsyn_string_free p w' = Some (tt, w1)
          /\ heap w1 = heap empty_world
          /\ rtsyn_string_free p w1 = None
          /\ load p w1 = None).
Proof.
  destruct (documents_are_released_once ui_schema_json 1 empty_world)
    as [Granted Owned].
  - unfold document_queries. do 3 (apply elem_of_cons; right). apply elem_of_cons. now left.
  - reflexivity.
  - destruct (Granted (plentiful_empty 5 ∅)) as (p & w' & Run & Np).
    destruct (Owned p w' Run Np) as (F & D & R & _).
    exists p, w'. repeat split; assumption.
Defined.

(** * Further properties of the example plugin *)

(** ** Life cycle of an instance *)

(** Results are taken apart by projection: an equation between results may
    hold values of type [double]. *)
Lemma result_inv {A B : Type} (a a' : A) (b b' : B) :
  Some (a, b) = Some (a', b') -> a = a' /\ b = b'.
Proof.
  intros E. split.
  - exact (f_equal (fun r => match r with Some (x, _) => x | None => a end) E).
  - exact (f_equal (fun r => match r with Some (_, y) => y | None => b end) E).
Qed.

Lemma destroy_null (w : world) : destroy NULL w = Some (tt, w).
Proof. reflexivity. Qed.

Lemma destroy_dead (instance : Z) (w : world) :
  instance <> NULL -> heap w !! instance = None -> destroy instance w = None.
Proof.
  intros N E. unfold destroy, free.
  destruct (Z.eqb_spec instance NULL) as [|_]; [contradiction|]. simpl.
  now apply release_dead.
Qed.

Lemma get_output_other (instance : Z) (port : string) (w : world) :
  c_string port -> port <> "signal" ->
  get_output instance port w = Some (0.0%float, w).
Proof.
  intros Hp Hne. unfold get_output.
  destruct (Z.eqb_spec (strcmp port "signal") 0) as [E|_]; [|reflexivity].
  exfalso. apply Hne. apply strcmp_eq; [assumption| |assumption].
  simpl. unfold code. simpl. repeat split; lia.
Qed.

Lemma get_output_signal_dead (instance : Z) (w : world) :
  (forall p, heap w !! instance <> Some (BInstance p)) ->
  get_output instance "signal" w = None.
Proof.
  intros Hd. unfold get_output. rewrite strcmp_refl. simpl.
  apply bind_none. unfold load_plugin.
  destruct (heap w !! instance) as [b|] eqn:L.
  - rewrite (bind_some _ _ _ _ _ (load_live _ _ _ L)).
    destruct b; try reflexivity. now destruct (Hd p).
  - now rewrite (bind_none _ _ _ (load_dead _ _ L)).
Qed.

(** X1: [create] followed by [destroy] of the handle it returned never
    faults and leaves the heap as it was, whether the allocator granted the
    instance or not: [destroy] accepts the [NULL] that a failed [create]
    returns. *)
Theorem create_destroy_round_trip (n : Z) (w : world) :
  exists w',
    (instance <- create n ;; destroy instance) w = Some (tt, w')
    /\ heap w' = heap w.
Proof.
  destruct (exhausted w) eqn:E.
  - rewrite (bind_some _ _ _ _ _ (create_exhausted n w E)), destroy_null.
    eexists. split; reflexivity.
  - rewrite (bind_some _ _ _ _ _ (create_granted n w E)).
    erewrite destroy_live;
      [| apply fresh_ptr_not_null | cbn [heap]; apply lookup_insert_eq].
    eexists. split; [reflexivity|]. cbn [heap].
    apply delete_insert_fresh, fresh_ptr_fresh.
Qed.

(** X2: [destroy] of a live handle releases exactly that block.
    Afterwards the handle is dead: a second [destroy] and a read of the
    port "signal" have no defined result, while [set_config_json],
    [set_input], [process] and a read of any other port still return,
    since they never touch the instance. *)
Theorem destroy_kills_handle
    (instance : Z) (b : block) (port : string) (calls : list call) (w : world) :
  instance <> NULL ->
  heap w !! instance = Some b ->
  c_string port -> port <> "signal" ->
  exists w',
    destroy instance w = Some (tt, w')
    /\ heap w' = delete instance (heap w)
    /\ destroy instance w' = None
    /\ get_output instance "signal" w' = None
    /\ get_output instance port w' = Some (0.0%float, w')
    /\ perform_all instance calls w' = Some (tt, w').
Proof.
  intros N L Hp Hne. eexists. split; [now apply destroy_live with (b := b)|].
  cbn [heap]. split; [reflexivity|]. split; [|split; [|split]].
  - apply destroy_dead; [assumption|]. cbn [heap]. apply lookup_delete_eq.
  - apply get_output_signal_dead. intros p. cbn [heap].
    now rewrite lookup_delete_eq.
  - now apply get_output_other.
  - apply perform_all_idle.
Qed.

Lemma destroy_kills_handle_witness :
  exists w',
    destroy 1 two_instances = Some (tt, w')
    /\ heap w' = delete 1 (heap two_instances)
    /\ destroy 1 w' = None
    /\ get_output 1 "signal" w' = None
    /\ get_output 1 "gain" w' = Some (0.0%float, w')
    /\ perform_all 1 [Process 0 0.02; SetInput "gain" 0.5] w' = Some (tt, w').
Proof.
  apply (destroy_kills_handle 1 (BInstance (fresh_instance 42)) "gain"
           [Process 0 0.02; SetInput "gain" 0.5] two_instances).
  - discriminate.
  - reflexivity.
  - simpl. unfold code. simpl. repeat split; lia.
  - discriminate.
Defined.

(** X3: [get_output] never changes the world, and it faults in exactly one
    case: the port is "signal" and the handle is not a live instance (there
    is no null check on this path).  On "signal" a live instance answers
    with its amplitude; every other port answers 0.0 for any handle. *)
Theorem get_output_faults_exactly (instance : Z) (port : string) (w : world) :
  c_string port ->
  (get_output instance port w = None
   <-> port = "signal" /\ forall p, heap w !! instance <> Some (BInstance p))
  /\ (forall x w',
        get_output instance port w = Some (x, w') ->
        w' = w
        /\ (port = "signal" ->
            exists p, heap w !! instance = Some (BInstance p) /\ x = amplitude p)
        /\ (port <> "signal" -> x = 0.0%float)).
Proof.
  intros Hp. destruct (string_dec port "signal") as [->|Hne].
  - destruct (heap w !! instance) as [b|] eqn:L.
    + destruct b as [|p| | | |];
        try (rewrite get_output_signal_dead by (intros p; congruence);
             split; [split; [intros _; split; [reflexivity | intros p; congruence]
                            | reflexivity]
                    | discriminate]).
      rewrite (get_output_signal _ _ _ L). split.
      * split; [discriminate|]. intros [_ Hd]. now destruct (Hd p).
      * intros x w' E. apply result_inv in E as [<- <-].
        split; [reflexivity|]. split; [|congruence].
        intros _. now exists p.
    + rewrite get_output_signal_dead by (intros p; congruence).
      split; [|discriminate].
      split; [intros _; split; [reflexivity | intros p; congruence] | reflexivity].
  - rewrite (get_output_other _ _ _ Hp Hne). split.
    + split; [discriminate|]. intros [E _]. contradiction.
    + intros x w' E. apply result_inv in E as [<- <-].
      split; [reflexivity|]. split; [contradiction | reflexivity].
Qed.

Lemma get_output_faults_exactly_witness :
  (get_output NULL "signal" two_instances = None
   <-> "signal" = "signal"
       /\ forall p, heap two_instances !! NULL <> Some (BInstance p))
  /\ (forall x w',
        get_output NULL "signal" two_instances = Some (x, w') ->
        w' = two_instances
        /\ ("signal" = "signal" ->
            exists p, heap two_instances !! NULL = Some (BInstance p)
                      /\ x = amplitude p)
        /\ ("signal" <> "signal" -> x = 0.0%float)).
Proof.
  apply (get_output_faults_exactly NULL "signal" two_instances).
  simpl. unfold code. simpl. repeat split; lia.
Defined.

(** X4: two granted calls of [create] return two different handles, each
    to an instance with its own id; destroying the first leaves the second
    live and readable.  With two granted requests both calls do return a
    handle. *)
Theorem instances_are_independent (i j : Z) (w : world) :
  (plentiful 2 w ->
   exists a b w',
     (a <- create i ;; b <- create j ;; ret (a, b)) w = Some ((a, b), w')
     /\ a <> NULL /\ b <> NULL)
  /\ forall a b w',
       (a <- create i ;; b <- create j ;; ret (a, b)) w = Some ((a, b), w') ->
       a <> NULL -> b <> NULL ->
       a <> b
       /\ heap w' !! a = Some (BInstance (fresh_instance i))
       /\ heap w' !! b = Some (BInstance (fresh_instance j))
       /\ exists w2,
            destroy a w' = Some (tt, w2)
            /\ heap w2 !! a = None
            /\ heap w2 !! b = Some (BInstance (fresh_instance j))
            /\ get_output b "signal" w2 = Some (1.0%float, w2).
Proof.
  split.
  - intros P2. destruct (plentiful_S _ _ P2) as [E1 P1].
    rewrite (bind_some _ _ _ _ _ (create_granted i w E1)).
    set (w1 := mkWorld _ _).
    assert (E2 : exhausted w1 = false) by apply (plentiful_S _ _ (P1 (heap w1))).
    rewrite (bind_some _ _ _ _ _ (create_granted j w1 E2)).
    eexists _, _, _. split; [reflexivity|].
    split; apply fresh_ptr_not_null.
  - intros a b w' Run Na Nb.
    apply bind_inv in Run as (a' & w1 & Ca & Run).
    apply bind_inv in Run as (b' & w2 & Cb & Run).
    unfold ret in Run. injection Run as -> -> ->.
    destruct (exhausted w) eqn:E1.
    { rewrite (create_exhausted _ _ E1) in Ca. injection Ca as <- _. contradiction. }
    rewrite (create_granted _ _ E1) in Ca. injection Ca as <- <-.
    set (a := fresh_ptr (heap w)) in *.
    set (w1 := mkWorld _ _) in *.
    assert (La : heap w1 !! a = Some (BInstance (fresh_instance i)))
      by (subst w1; cbn [heap]; apply lookup_insert_eq).
    destruct (exhausted w1) eqn:E2.
    { rewrite (create_exhausted _ _ E2) in Cb. injection Cb as <- _. contradiction. }
    rewrite (create_granted _ _ E2) in Cb. injection Cb as <- <-.
    set (b := fresh_ptr (heap w1)) in *.
    assert (Nab : b <> a) by (apply fresh_ptr_ne with (b := BInstance (fresh_instance i)); exact La).
    assert (La' : heap (mkWorld (<[b := BInstance (fresh_instance j)]> (heap w1))
                                (tail (oom w1))) !! a
                  = Some (BInstance (fresh_instance i)))
      by (cbn [heap]; now rewrite lookup_insert_ne).
    split; [intros Eq; apply Nab; symmetry; exact Eq|]. split; [exact La'|].
    split; [cbn [heap]; apply lookup_insert_eq|].
    eexists. split; [apply destroy_live with (b := BInstance (fresh_instance i));
                     [exact Na | exact La']|].
    cbn [heap]. split; [apply lookup_delete_eq|].
    assert (Lb : delete a (<[b := BInstance (fresh_instance j)]> (heap w1)) !! b
                 = Some (BInstance (fresh_instance j))).
    { rewrite lookup_delete_ne by (intros Eq; apply Nab; symmetry; exact Eq).
      apply lookup_insert_eq. }
    split; [exact Lb|].
    now rewrite (get_output_signal b (fresh_instance j)).
Qed.

Lemma instances_are_independent_witness :
  exists a b w',
    (a <- create 42 ;; b <- create 7 ;; ret (a, b)) empty_world = Some ((a, b), w')
    /\ a <> NULL /\ b <> NULL
    /\ a <> b
    /\ heap w' !! a = Some (BInstance (fresh_instance 42))
    /\ heap w' !! b = Some (BInstance (fresh_instance 7)).
Proof.
  destruct (instances_are_independent 42 7 empty_world) as [Granted Apart].
  destruct (Granted (plentiful_empty 2 ∅)) as (a & b & w' & Run & Na & Nb).
  destruct (Apart a b w' Run Na Nb) as (Nab & La & Lb & _).
  exists a, b, w'. repeat split; assumption.
Defined.

(** ** What a call may do to the heap *)

Lemma create_effect (n : Z) (w w1 : world) (p : Z) :
  create n w = Some (p, w1) ->
  (p = NULL /\ heap w1 = heap w)
  \/ (p <> NULL /\ heap w !! p = None
      /\ heap w1 = <[p := BInstance (fresh_instance n)]> (heap w)).
Proof.
  intros Run. destruct (exhausted w) eqn:E.
  - rewrite (create_exhausted _ _ E) in Run. injection Run as <- <-. now left.
  - rewrite (create_granted _ _ E) in Run. injection Run as <- <-. right.
    split; [apply fresh_ptr_not_null|]. split; [apply fresh_ptr_fresh | reflexivity].
Qed.

Lemma alloc_effect (b : block) (w w1 : world) (p : Z) :
  alloc b w = Some (p, w1) ->
  (p = NULL /\ heap w1 = heap w)
  \/ (p <> NULL /\ heap w !! p = None /\ heap w1 = <[p := b]> (heap w)).
Proof.
  intros Run. destruct (exhausted w) eqn:E.
  - rewrite (alloc_exhausted _ _ E) in Run. injection Run as <- <-. now left.
  - rewrite (alloc_granted _ _ E) in Run. injection Run as <- <-. right.
    split; [apply fresh_ptr_not_null|]. split; [apply fresh_ptr_fresh | reflexivity].
Qed.

Lemma strdup_effect (s : string) (w w1 : world) (p : Z) :
  strdup s w = Some (p, w1) ->
  (p = NULL /\ heap w1 = heap w)
  \/ (p <> NULL /\ heap w !! p = None /\ heap w1 = <[p := BString s]> (heap w)).
Proof.
  intros Run. destruct (exhausted w) eqn:E.
  - rewrite (strdup_exhausted _ _ E) in Run. injection Run as <- <-. now left.
  - rewrite (strdup_granted _ _ E) in Run. injection Run as <- <-. right.
    split; [apply fresh_ptr_not_null|]. split; [apply fresh_ptr_fresh | reflexivity].
Qed.

Lemma ui_schema_json_effect (instance : Z) (w w1 : world) (p : Z) :
  heap w !! NULL = None ->
  ui_schema_json instance w = Some (p, w1) ->
  (p = NULL /\ heap w1 = heap w)
  \/ (p <> NULL /\ heap w !! p = None
      /\ heap w1 = <[p := BJson (schema_document example_fields)]> (heap w)).
Proof.
  intros H0 Run. destruct (Z.eq_dec p NULL) as [->|Np].
  - left. split; [reflexivity|].
    rewrite (ui_schema_json_run instance w H0) in Run. cbv zeta in Run.
    repeat match type of Run with
           | (if ?c then _ else _) = _ => destruct c; try discriminate
           end.
    + now injection Run as <-.
    + injection Run as N _. now apply fresh_ptr_not_null in N.
  - right. split; [exact Np|]. now apply ui_schema_json_returns with (instance := instance).
Qed.

(** A query either fails with [NULL] and an untouched heap, or adds one
    document in a block that was not live. *)
Lemma query_effect (q : Z -> M Z) (instance : Z) (w w1 : world) (p : Z) :
  q ∈ document_queries ->
  heap w !! NULL = None ->
  q instance w = Some (p, w1) ->
  (p = NULL /\ heap w1 = heap w)
  \/ (p <> NULL /\ heap w !! p = None
      /\ exists d, is_document d = true /\ heap w1 = <[p := d]> (heap w)).
Proof.
  intros Hq H0 Run. unfold document_queries in Hq.
  repeat (apply elem_of_cons in Hq as [->|Hq]); [..|now apply elem_of_nil in Hq].
  - destruct (strdup_effect _ _ _ _ Run) as [?|(? & ? & ?)]; [now left|right].
    repeat split; try assumption. now exists (BString meta_text).
  - destruct (strdup_effect _ _ _ _ Run) as [?|(? & ? & ?)]; [now left|right].
    repeat split; try assumption. now exists (BString inputs_text).
  - destruct (strdup_effect _ _ _ _ Run) as [?|(? & ? & ?)]; [now left|right].
    repeat split; try assumption. now exists (BString outputs_text).
  - destruct (ui_schema_json_effect _ _ _ _ H0 Run) as [?|(? & ? & ?)]; [now left|right].
    repeat split; try assumption. now exists (BJson (schema_document example_fields)).
  - rewrite behavior_json_run in Run.
    destruct (alloc_effect _ _ _ _ Run) as [?|(? & ? & ?)]; [now left|right].
    repeat split; try assumption. now exists (BJson example_behavior).
Qed.

(** ** Documents of successive queries *)

(** X5: documents accumulate.  When a host issues any sequence of the
    five queries, on any handles, and each returns a document, the
    documents are in pairwise different blocks, none of which was live
    before; all of them are live at the end, no other block has changed,
    and the heap has grown by exactly one block per query: the plugin
    never reuses, overwrites or releases a document it has handed out. *)
Theorem documents_accumulate
    (requests : list ((Z -> M Z) * Z)) (w w' : world) (ps : list Z) :
  Forall (fun r => r.1 ∈ document_queries) requests ->
  heap w !! NULL = None ->
  ask requests w = Some (ps, w') ->
  Forall (fun p => p <> NULL) ps ->
  length ps = length requests
  /\ NoDup ps
  /\ size (heap w') = (size (heap w) + length requests)%nat
  /\ (forall p, p ∈ ps ->
        heap w !! p = None
        /\ exists d, is_document d = true /\ heap w' !! p = Some d)
  /\ (forall a, a ∉ ps -> heap w' !! a = heap w !! a).
Proof.
  revert w w' ps.
  induction requests as [|[q i] requests IH]; intros w w' ps Hq H0 Run Hn.
  - cbn [ask] in Run. unfold ret in Run. injection Run as <- <-.
    split; [reflexivity|]. split; [apply NoDup_nil_2|].
    split; [cbn [length]; lia|]. split; [|reflexivity].
    intros p Hp. now apply elem_of_nil in Hp.
  - cbn [ask] in Run.
    apply bind_inv in Run as (p & w1 & R1 & Run).
    apply bind_inv in Run as (ps' & w2 & R2 & Run).
    unfold ret in Run. injection Run as <- <-.
    apply Forall_cons in Hq as [Hq1 Hq]. cbn [fst] in Hq1.
    apply Forall_cons in Hn as [Np Hn].
    destruct (query_returns q i w w1 p Hq1 H0 R1 Np) as (F & d & Hd & H1).
    assert (H0' : heap w1 !! NULL = None)
      by (rewrite H1, lookup_insert_ne; [exact H0 | exact Np]).
    destruct (IH w1 w2 ps' Hq H0' R2 Hn) as (Len & Nd & Sz & Live & Frame).
    assert (L1 : heap w1 !! p = Some d) by (rewrite H1; apply lookup_insert_eq).
    assert (Nin : p ∉ ps').
    { intros Hin. destruct (Live p Hin) as [Dead _]. congruence. }
    split; [cbn [length]; now rewrite Len|].
    split; [now apply NoDup_cons|]. split; [|split].
    + rewrite Sz, H1, map_size_insert_None by exact F. cbn [length]. lia.
    + intros a Ha. apply elem_of_cons in Ha as [->|Ha].
      * split; [exact F|]. exists d. split; [exact Hd|]. now rewrite Frame.
      * destruct (Live a Ha) as [Dead Doc]. split; [|exact Doc].
        rewrite H1 in Dead. destruct (Z.eq_dec p a) as [->|Npa]; [contradiction|].
        now rewrite lookup_insert_ne in Dead.
    + intros a Ha. apply not_elem_of_cons in Ha as [Nap Ha].
      rewrite (Frame a Ha), H1. apply lookup_insert_ne. congruence.
Qed.

Lemma documents_accumulate_witness :
  let requests := [(meta_json, 1); (ui_schema_json, NULL); (meta_json, 1)] in
  exists ps w',
    ask requests two_instances = Some (ps, w')
    /\ length ps = length requests
    /\ NoDup ps
    /\ size (heap w') = (size (heap two_instances) + length requests)%nat
    /\ (forall p, p ∈ ps ->
          heap two_instances !! p = None
          /\ exists d, is_document d = true /\ heap w' !! p = Some d)
    /\ (forall a, a ∉ ps -> heap w' !! a = heap two_instances !! a).
Proof.
  intros requests.
  destruct (ask requests two_instances) as [[ps w']|] eqn:Run;
    [|vm_compute in Run; discriminate].
  exists ps, w'. split; [reflexivity|].
  apply (documents_accumulate requests two_instances w' ps).
  - repeat apply Forall_cons_2; try apply Forall_nil_2; cbn [fst];
      unfold document_queries; rewrite !elem_of_cons; tauto.
  - reflexivity.
  - exact Run.
  - pose proof Run as Run'. vm_compute in Run'.
    apply result_inv in Run' as [<- _].
    repeat apply Forall_cons_2; try apply Forall_nil_2; discriminate.
Defined.

(** ** Declared defaults *)

Lemma create_returns (n : Z) (w w' : world) (p : Z) :
  create n w = Some (p, w') -> p <> NULL ->
  heap w' !! p = Some (BInstance (fresh_instance n)).
Proof.
  intros Run Np. destruct (create_effect _ _ _ _ Run) as [[N _]|(_ & _ & H)].
  - contradiction.
  - rewrite H. apply lookup_insert_eq.
Qed.

(** X6: the schema that [ui_schema_json] serializes and the state that
    [create] installs agree: the declared defaults of "amplitude" and
    "frequency" are the amplitude and frequency of a new instance, the
    declared default of "output_path" is absent and the new instance's path
    is empty.  Each declared default lies within its declared bounds, the
    file mode is one of the header's constants, and the keys are pairwise
    distinct. *)
Theorem declared_defaults_match_create
    (n instance : Z) (w w' v v' : world) (p doc : Z) :
  create n w = Some (p, w') -> p <> NULL ->
  heap v !! NULL = None ->
  ui_schema_json instance v = Some (doc, v') -> doc <> NULL ->
  heap v' !! doc = Some (BJson (schema_document example_fields))
  /\ (exists plugin,
        heap w' !! p = Some (BInstance plugin)
        /\ float_default "amplitude" example_fields = Some (amplitude plugin)
        /\ float_default "frequency" example_fields = Some (frequency plugin)
        /\ path_default "output_path" example_fields = Some None
        /\ read_c_string (output_path plugin) = Some EmptyString)
  /\ forallb field_in_range example_fields = true
  /\ NoDup (map field_key example_fields).
Proof.
  intros Run Np H0 Ui Nd. split; [|split; [|split]].
  - destruct (ui_schema_json_returns _ _ _ _ H0 Ui Nd) as [_ H].
    rewrite H. apply lookup_insert_eq.
  - exists (fresh_instance n). split; [now apply create_returns with (w := w)|].
    repeat split.
  - vm_compute. reflexivity.
  - cbn [map example_fields field_key].
    repeat (apply NoDup_cons; split;
            [rewrite ?elem_of_cons, elem_of_nil; intuition discriminate|]).
    apply NoDup_nil_2.
Qed.

Lemma declared_defaults_match_create_witness :
  exists p w' doc v',
    create 42 empty_world = Some (p, w')
    /\ ui_schema_json p w' = Some (doc, v')
    /\ heap v' !! doc = Some (BJson (schema_document example_fields))
    /\ (exists plugin,
          heap w' !! p = Some (BInstance plugin)
          /\ float_default "amplitude" example_fields = Some (amplitude plugin)
          /\ float_default "frequency" example_fields = Some (frequency plugin)
          /\ path_default "output_path" example_fields = Some None
          /\ read_c_string (output_path plugin) = Some EmptyString).
Proof.
  assert (C : create 42 empty_world
              = Some (1, mkWorld (<[1 := BInstance (fresh_instance 42)]> ∅) []))
    by (vm_compute; reflexivity).
  assert (U : ui_schema_json 1 (mkWorld (<[1 := BInstance (fresh_instance 42)]> ∅) [])
              = Some (3, mkWorld (<[3 := BJson (schema_document example_fields)]>
                                    (<[1 := BInstance (fresh_instance 42)]> ∅)) []))
    by (vm_compute; reflexivity).
  eexists _, _, _, _. split; [exact C|]. split; [exact U|].
  assert (Np : 1 <> NULL) by discriminate.
  assert (Nd : 3 <> NULL) by discriminate.
  assert (H0 : heap (mkWorld (<[1 := BInstance (fresh_instance 42)]> ∅) []) !! NULL = None)
    by reflexivity.
  destruct (declared_defaults_match_create 42 1 _ _ _ _ 1 3 C Np H0 U Nd) as (D & P & _).
  split; [exact D | exact P].
Defined.

(** ** The plugin never writes to an instance *)

(** One call through the table leaves [NULL] dead, and every instance that
    is live after it was live before with the same contents, or is the new
    instance of this very [create]. *)
Lemma dispatch_frame (c : host_call) (w w' : world) :
  heap w !! NULL = None ->
  dispatch rtsyn_plugin_api c w = Some (tt, w') ->
  heap w' !! NULL = None
  /\ forall a p,
       heap w' !! a = Some (BInstance p) ->
       heap w !! a = Some (BInstance p)
       \/ exists n, c = HostCreate n /\ p = fresh_instance n.
Proof.
  intros H0 Run.
  assert (Same : heap w' = heap w ->
            heap w' !! NULL = None
            /\ forall a p, heap w' !! a = Some (BInstance p) ->
                 heap w !! a = Some (BInstance p)
                 \/ exists n, c = HostCreate n /\ p = fresh_instance n).
  { intros ->. split; [exact H0|]. intros a p L. now left. }
  assert (Doc : forall q d, q <> NULL -> is_document d = true ->
            heap w' = <[q := d]> (heap w) ->
            heap w' !! NULL = None
            /\ forall a p, heap w' !! a = Some (BInstance p) ->
                 heap w !! a = Some (BInstance p)
                 \/ exists n, c = HostCreate n /\ p = fresh_instance n).
  { intros q d Nq Hd ->. split; [now rewrite lookup_insert_ne|].
    intros a p L. left. destruct (Z.eq_dec q a) as [->|Nqa].
    - rewrite lookup_insert_eq in L. injection L as ->. discriminate.
    - now rewrite lookup_insert_ne in L. }
  assert (Query : forall (q : Z -> M Z) instance,
            q ∈ document_queries ->
            (q instance ;; ret tt) w = Some (tt, w') ->
            heap w' !! NULL = None
            /\ forall a p, heap w' !! a = Some (BInstance p) ->
                 heap w !! a = Some (BInstance p)
                 \/ exists n, c = HostCreate n /\ p = fresh_instance n).
  { intros q instance Hq R. apply bind_inv in R as (r & w1 & R & Ret).
    unfold ret in Ret. injection Ret as <-.
    destruct (query_effect q instance w w1 r Hq H0 R) as [[_ H]|(Nr & _ & d & Hd & H)].
    - now apply Same.
    - now apply Doc with (q := r) (d := d). }
  destruct c as [n|instance|instance|instance|instance|instance tick period
                 |instance port value|instance port|instance json|instance|instance];
    cbn [dispatch rtsyn_plugin_api Api.create Api.destroy Api.meta_json
         Api.inputs_json Api.outputs_json Api.process Api.set_input
         Api.get_output Api.set_config_json Api.ui_schema_json
         Api.behavior_json] in Run.
  - apply bind_inv in Run as (r & w1 & R & Ret). unfold ret in Ret. injection Ret as <-.
    destruct (create_effect _ _ _ _ R) as [[_ H]|(Nr & _ & H)]; [now apply Same|].
    rewrite H. split; [now rewrite lookup_insert_ne|].
    intros a p L. destruct (Z.eq_dec r a) as [->|Nra].
    + rewrite lookup_insert_eq in L. injection L as <-. right. now exists n.
    + rewrite lookup_insert_ne in L by assumption. now left.
  - unfold destroy, free in Run.
    destruct (Z.eqb_spec instance NULL) as [->|N]; cbn [negb] in Run.
    + unfold ret in Run. injection Run as <-. now apply Same.
    + unfold release in Run. destruct (heap w !! instance) eqn:L; [|discriminate].
      injection Run as <-. cbn [heap]. split.
      * now rewrite lookup_delete_ne.
      * intros a p La. left. destruct (Z.eq_dec instance a) as [->|Na].
        -- now rewrite lookup_delete_eq in La.
        -- now rewrite lookup_delete_ne in La.
  - apply (Query meta_json instance); [|exact Run].
    unfold document_queries. apply elem_of_cons. now left.
  - apply (Query inputs_json instance); [|exact Run].
    unfold document_queries. apply elem_of_cons; right. apply elem_of_cons. now left.
  - apply (Query outputs_json instance); [|exact Run].
    unfold document_queries. do 2 (apply elem_of_cons; right). apply elem_of_cons. now left.
  - unfold process in Run. rewrite bind_ret in Run. unfold ret in Run.
    injection Run as <-. now apply Same.
  - unfold set_input, ret in Run. injection Run as <-. now apply Same.
  - apply bind_inv in Run as (x & w1 & R & Ret). unfold ret in Ret.
    apply result_inv in Ret as [_ <-].
    unfold get_output in R. destruct (strcmp port "signal" =? 0).
    + apply bind_inv in R as (pl & w2 & R & Ret). unfold ret in Ret.
      apply result_inv in Ret as [_ <-].
      unfold load_plugin in R. apply bind_inv in R as (b & w3 & R & Ret).
      unfold load in R. destruct (heap w !! instance) as [blk|]; [|discriminate].
      injection R as <- <-. destruct blk; try discriminate.
      unfold ret in Ret. apply result_inv in Ret as [_ <-]. now apply Same.
    + unfold ret in R. apply result_inv in R as [_ <-]. now apply Same.
  - unfold set_config_json in Run. rewrite bind_ret in Run. unfold ret in Run.
    injection Run as <-. now apply Same.
  - apply (Query ui_schema_json instance); [|exact Run].
    unfold document_queries. do 3 (apply elem_of_cons; right). apply elem_of_cons. now left.
  - apply (Query behavior_json instance); [|exact Run].
    unfold document_queries. do 4 (apply elem_of_cons; right). apply elem_of_cons. now left.
Qed.

Lemma drive_frame (calls : list host_call) :
  forall w w',
    heap w !! NULL = None ->
    drive rtsyn_plugin_api calls w = Some (tt, w') ->
    heap w' !! NULL = None
    /\ forall a p,
         heap w' !! a = Some (BInstance p) ->
         heap w !! a = Some (BInstance p)
         \/ exists n, HostCreate n ∈ calls /\ p = fresh_instance n.
Proof.
  induction calls as [|c calls IH]; intros w w' H0 Run.
  - cbn [drive] in Run. unfold ret in Run. injection Run as <-.
    split; [exact H0|]. intros a p L. now left.
  - cbn [drive] in Run. apply bind_inv in Run as ([] & w1 & Step & Run).
    destruct (dispatch_frame c w w1 H0 Step) as [H1 F1].
    destruct (IH w1 w' H1 Run) as [H' F']. split; [exact H'|].
    intros a p L. destruct (F' a p L) as [L1|(n & Hn & ->)].
    + destruct (F1 a p L1) as [Lw|(n & -> & ->)]; [now left|].
      right. exists n. split; [apply elem_of_cons; now left | reflexivity].
    + right. exists n. split; [apply elem_of_cons; now right | reflexivity].
Qed.

(** X7: however a host drives the plugin through its dispatch table (any
    entry points, in any order, with any arguments) a run that returns never
    writes to an instance: every instance live at the end was live at the
    start with the same state, or is in the state some [create(id)] of the
    run installed.  [NULL] never becomes live. *)
Theorem instances_are_never_written (calls : list host_call) (w w' : world) :
  heap w !! NULL = None ->
  drive rtsyn_plugin_api calls w = Some (tt, w') ->
  heap w' !! NULL = None
  /\ forall a p,
       heap w' !! a = Some (BInstance p) ->
       heap w !! a = Some (BInstance p)
       \/ exists n, HostCreate n ∈ calls /\ p = fresh_instance n.
Proof. apply drive_frame. Qed.

Lemma instances_are_never_written_witness :
  exists w',
    drive rtsyn_plugin_api session empty_world = Some (tt, w')
    /\ heap w' !! NULL = None
    /\ forall a p,
         heap w' !! a = Some (BInstance p) ->
         heap empty_world !! a = Some (BInstance p)
         \/ exists n, HostCreate n ∈ session /\ p = fresh_instance n.
Proof.
  destruct (drive rtsyn_plugin_api session empty_world) as [[[] w']|] eqn:Run.
  - exists w'. split; [reflexivity|].
    apply (instances_are_never_written session empty_world w');
      [reflexivity | exact Run].
  - vm_compute in Run. discriminate.
Defined.

(** X8: in a heap that starts without instances, whatever the host has
    called through the table, every live instance still answers 1.0 on the
    port "signal", still has frequency 440.0 and an empty output path, and
    carries the id of one of the [create] calls: configuration, inputs and
    ticks never reach the output of this plugin. *)
Theorem outputs_stay_at_default
    (calls : list host_call) (w w' : world) (instance : Z) (plugin : ExamplePlugin) :
  heap w !! NULL = None ->
  (forall a p, heap w !! a <> Some (BInstance p)) ->
  drive rtsyn_plugin_api calls w = Some (tt, w') ->
  heap w' !! instance = Some (BInstance plugin) ->
  get_output instance "signal" w' = Some (1.0%float, w')
  /\ frequency plugin = 440.0%float
  /\ read_c_string (output_path plugin) = Some EmptyString
  /\ HostCreate (id plugin) ∈ calls.
Proof.
  intros H0 Hnone Run L.
  destruct (drive_frame calls w w' H0 Run) as [_ F].
  destruct (F instance plugin L) as [Lw|(n & Hn & ->)].
  - now destruct (Hnone instance plugin).
  - rewrite (get_output_signal _ _ _ L). repeat split. exact Hn.
Qed.

Lemma outputs_stay_at_default_witness :
  let calls := [HostCreate 42; HostSetConfigJson 1 amplitude_payload;
                HostSetInput 1 "signal" 2.0; HostProcess 1 0 0.02] in
  let w' := mkWorld (<[1 := BInstance (fresh_instance 42)]> ∅) [] in
  drive rtsyn_plugin_api calls empty_world = Some (tt, w')
  /\ get_output 1 "signal" w' = Some (1.0%float, w')
  /\ frequency (fresh_instance 42) = 440.0%float
  /\ read_c_string (output_path (fresh_instance 42)) = Some EmptyString
  /\ HostCreate (id (fresh_instance 42)) ∈ calls.
Proof.
  intros calls w'.
  assert (Run : drive rtsyn_plugin_api calls empty_world = Some (tt, w'))
    by (vm_compute; reflexivity).
  split; [exact Run|].
  apply (outputs_stay_at_default calls empty_world w' 1 (fresh_instance 42)).
  - reflexivity.
  - intros a p. cbn [heap empty_world]. now rewrite lookup_empty.
  - exact Run.
  - reflexivity.
Defined.
